(** * Operator console: telemetry reconciliation and traversability decision

    A shallow embedding of the console's data pipeline:
    - [mockDataService.ts]: [generateSensorData], [generatePosition],
      [generateInitialTrajectory] and the module counter [currentTime];
    - [WebSocketService.ts]: the [onmessage] handler of
      [WebSocketService.connect] and [SerialService.parseData];
    - [App.tsx]: [handleSerialData], [updateSensorState], the data-loop
      effect and the configuration modal's [handleSave].

    JavaScript numbers are IEEE 754 binary64 values and are modelled by the
    kernel's primitive floats.  What the program reads from its environment
    (the clock, [Math.random], [Math.sin], [Math.cos], [toFixed],
    [Math.round], the result of [JSON.parse]) is an input of the model. *)

From Stdlib Require Import Bool List Ascii String ZArith Lia PeanoNat.
From Stdlib Require Import Floats.
Import ListNotations.

#[local] Set Warnings "-inexact-float,-register-all".

Local Open Scope string_scope.
Local Open Scope bool_scope.
Local Open Scope list_scope.

(** ** JavaScript values *)

(** The values a property can hold at run time.  [JSON.parse] yields every
    constructor but [Undefined]. *)
Inductive value : Type :=
| Undefined
| Null
| Bool (b : bool)
| Num (n : float)
| Str (s : string)
| Arr (items : list value)
| Obj (props : list (string * value)).

Definition is_empty (s : string) : bool :=
  match s with EmptyString => true | String _ _ => false end.

(** ToBoolean: [undefined], [null], [false], [0], [-0], [NaN] and the empty
    string are falsy. *)
Definition truthy (v : value) : bool :=
  match v with
  | Undefined | Null => false
  | Bool b => b
  | Num n => negb (is_zero n || is_nan n)
  | Str s => negb (is_empty s)
  | Arr _ | Obj _ => true
  end.

(** [a || b] *)
Definition js_or (a b : value) : value := if truthy a then a else b.

Fixpoint lookup (k : string) (props : list (string * value)) : value :=
  match props with
  | [] => Undefined
  | (k', v) :: rest => if String.eqb k k' then v else lookup k rest
  end.

(** [data.k] for one of the telemetry keys: a TypeError ([None]) on
    [undefined] and [null], the own property of an object, and [undefined]
    on primitives and arrays (no telemetry key is a prototype property). *)
Definition get_prop (data : value) (k : string) : option value :=
  match data with
  | Undefined | Null => None
  | Obj props => Some (lookup k props)
  | _ => Some Undefined
  end.

(** [v !== undefined] *)
Definition is_defined (v : value) : bool :=
  match v with Undefined => false | _ => true end.

(** ** Numbers *)

Definition Math_abs (x : float) : float := abs x.

(** [Math.max(a, b)]: NaN if either is NaN, and [+0] is larger than [-0]. *)
Definition Math_max (a b : float) : float :=
  if is_nan a then a
  else if is_nan b then b
  else if (a <? b)%float then b
  else if (b <? a)%float then a
  else if get_sign a then b else a.

(** The loop counter [i] of a counted loop as a number. *)
Definition of_nat (i : nat) : float := of_uint63 (Uint63.of_Z (Z.of_nat i)).

(** ** types.ts *)

Inductive RobotMode : Type := FLIGHT | TRACK.

Inductive ConnectionStatus : Type :=
| DISCONNECTED | CONNECTING | CONNECTED | ERROR.

Record AlgorithmConfig : Type := mkAlgorithmConfig {
  maxSlope : float;
  maxStepHeight : float;
  maxRoughness : float
}.

(** The interface types every field but [timestamp] and [traversable] as
    [number]; a record built from a transport fragment holds whatever the
    fragment held, so the fields are run-time values. *)
Record SensorData : Type := mkSensorData {
  timestamp : value;
  methane : value;
  methaneRaw : value;
  temperature : value;
  humidity : value;
  windSpeed : value;
  battery : value;
  wifiSignal : value;
  obstacleDistance : value;
  slamRmse : value;
  featureDensity : value;
  hydraulicDiameter : value;
  slope : value;
  stepHeight : value;
  roughness : value;
  traversable : value
}.

Record Position : Type := mkPosition {
  pos_x : float;
  pos_y : float;
  pos_z : float;
  heading : float
}.

Record TrajectoryPoint : Type := mkTrajectoryPoint {
  x : float;
  y : float;
  riskLevel : value;          (* 0-1 for heatmap *)
  pt_timestamp : option value (* timestamp?: string *)
}.

(** ** mockDataService.ts *)

Definition startX : float := 50.
Definition startY : float := 50.
Definition radius : float := 30.

Definition DEFAULT_THETA_LIM : float := 35.
Definition DEFAULT_H_LIM : float := 0.32.
Definition DEFAULT_SIGMA_SAFE : float := 0.05.

(** [config?.maxSlope ?? DEFAULT_THETA_LIM] and its two siblings. *)
Definition limitSlope (config : option AlgorithmConfig) : float :=
  match config with Some c => maxSlope c | None => DEFAULT_THETA_LIM end.
Definition limitStep (config : option AlgorithmConfig) : float :=
  match config with Some c => maxStepHeight c | None => DEFAULT_H_LIM end.
Definition limitRough (config : option AlgorithmConfig) : float :=
  match config with Some c => maxRoughness c | None => DEFAULT_SIGMA_SAFE end.

(** The decision of line 44: [(slope < limitSlope) &&
    (stepHeight < limitStep) && (roughness < limitRough)]. *)
Definition isPassable (slope stepHeight roughness : float)
    (config : option AlgorithmConfig) : bool :=
  (slope <? limitSlope config)%float
  && (stepHeight <? limitStep config)%float
  && (roughness <? limitRough config)%float.

Section Synthesizer.

(** The numeric library: [Math.sin], [Math.cos], [Math.round] and
    [parseFloat(x.toFixed(d))]. *)
Variables Math_sin Math_cos Math_round : float -> float.
Variable toFixed : float -> nat -> float.

(** The terrain measurements at counter value [t]; [u] is the
    [Math.random] draw. *)
Definition rawSlope (t : float) : float :=
  (Math_abs (Math_sin (t * 0.3)) * 40)%float.
Definition rawStepHeight (t : float) : float :=
  (Math_abs (Math_cos (t * 0.4)) * 0.4)%float.
Definition rawRoughness (u : float) : float := (u * 0.08)%float.

(** [generateSensorData(mode, config)].  [now] is
    [new Date().toLocaleTimeString()], [rnd k] the k-th [Math.random]
    draw of the call (in evaluation order), [currentTime] the module
    counter before the call; the result pairs the record with the counter
    after the call. *)
Definition generateSensorData (mode : RobotMode)
    (config : option AlgorithmConfig) (now : string) (rnd : nat -> float)
    (currentTime : float) : SensorData * float :=
  let currentTime := (currentTime + 1)%float in
  let baseSignal := (0.4 + Math_sin (currentTime * 0.1) * 0.3)%float in
  let noise := ((rnd 0%nat - 0.5) * 0.4)%float in
  let methaneRaw := Math_max 0%float (baseSignal + noise)%float in
  let methaneGNN := Math_max 0%float baseSignal in
  let featureDensity :=
    (50 + Math_sin (currentTime * 0.2) * 30 + rnd 1%nat * 10)%float in
  let slamRmse :=
    Math_max 0.02%float
      ((100 / (featureDensity + 10)) * 0.05 + rnd 2%nat * 0.01)%float in
  let slope := rawSlope currentTime in
  let stepHeight := rawStepHeight currentTime in
  let roughness := rawRoughness (rnd 3%nat) in
  let passable := isPassable slope stepHeight roughness config in
  let hydraulicDiameter := (3 + Math_sin (currentTime * 0.05))%float in
  let tempSpike := if (0.95 <? rnd 4%nat)%float then 12%float else 0%float in
  ({| timestamp := Str now;
      methane := Num (toFixed methaneGNN 3);
      methaneRaw := Num (toFixed methaneRaw 3);
      temperature := Num (24 + rnd 5%nat * 2 + tempSpike)%float;
      humidity := Num (85 + rnd 6%nat * 5)%float;
      windSpeed :=
        Num (match mode with
             | FLIGHT => 3.5 + rnd 7%nat
             | TRACK => 0.5 + rnd 7%nat
             end)%float;
      battery := Num (Math_max 0%float (100 - currentTime * 0.05)%float);
      wifiSignal := Num (80 + rnd 8%nat * 20)%float;
      obstacleDistance := Num (2.5 + rnd 9%nat * 5)%float;
      slamRmse := Num (toFixed slamRmse 3);
      featureDensity := Num (Math_round featureDensity);
      hydraulicDiameter := Num (toFixed hydraulicDiameter 2);
      slope := Num (toFixed slope 1);
      stepHeight := Num (toFixed stepHeight 2);
      roughness := Num (toFixed roughness 3);
      traversable := Bool passable |},
   currentTime).

(** [generatePosition(mode)], reading the module counter. *)
Definition generatePosition (mode : RobotMode) (currentTime : float)
    : Position :=
  let angle := (currentTime * 0.05)%float in
  {| pos_x := (startX + radius * Math_cos angle)%float;
     pos_y := (startY + radius * Math_sin angle)%float;
     pos_z := match mode with FLIGHT => 1.5%float | TRACK => 0.2%float end;
     heading := ((angle * 180) / 3.141592653589793 + 90)%float |}.

(** The body of the seeding loop at counter [i]; [u] is its draw. *)
Definition seedPoint (i : nat) (u : float) : TrajectoryPoint :=
  let angle := (of_nat i * 0.1)%float in
  let px := (startX + radius * Math_cos angle)%float in
  let py := (startY + radius * Math_sin angle)%float in
  let risk :=
    if (startX <? px)%float && (py <? startY)%float
    then 0.8%float else 0.1%float in
  {| x := px; y := py;
     riskLevel := Num (risk + u * 0.2)%float;
     pt_timestamp := None |}.

(** [for (let i = 0; i < 100; i++) points.push(...)], by the number [n]
    of iterations left. *)
Fixpoint seedLoop (rnd : nat -> float) (n i : nat)
    (points : list TrajectoryPoint) : list TrajectoryPoint :=
  match n with
  | O => points
  | S n' => seedLoop rnd n' (S i) (points ++ [seedPoint i (rnd i)])
  end.

Definition generateInitialTrajectory (rnd : nat -> float)
    : list TrajectoryPoint :=
  seedLoop rnd 100 0 [].

End Synthesizer.

(** ** Transport fragments: [Partial<SensorData>] *)

(** A key of a fragment is absent ([None]) or present with a value, which
    may be [undefined]. *)
Record Partial : Type := mkPartial {
  p_timestamp : option value;
  p_methane : option value;
  p_methaneRaw : option value;
  p_temperature : option value;
  p_humidity : option value;
  p_windSpeed : option value;
  p_battery : option value;
  p_wifiSignal : option value;
  p_obstacleDistance : option value;
  p_slamRmse : option value;
  p_featureDensity : option value;
  p_hydraulicDiameter : option value;
  p_slope : option value;
  p_stepHeight : option value;
  p_roughness : option value;
  p_traversable : option value
}.

(** The keys of [SensorData], to speak of all fields at once. *)
Inductive Field : Type :=
| Ftimestamp | Fmethane | FmethaneRaw | Ftemperature | Fhumidity
| FwindSpeed | Fbattery | FwifiSignal | FobstacleDistance | FslamRmse
| FfeatureDensity | FhydraulicDiameter | Fslope | FstepHeight | Froughness
| Ftraversable.

Definition fields : list Field :=
  [Ftimestamp; Fmethane; FmethaneRaw; Ftemperature; Fhumidity; FwindSpeed;
   Fbattery; FwifiSignal; FobstacleDistance; FslamRmse; FfeatureDensity;
   FhydraulicDiameter; Fslope; FstepHeight; Froughness; Ftraversable].

Definition field (f : Field) (d : SensorData) : value :=
  match f with
  | Ftimestamp => timestamp d | Fmethane => methane d
  | FmethaneRaw => methaneRaw d | Ftemperature => temperature d
  | Fhumidity => humidity d | FwindSpeed => windSpeed d
  | Fbattery => battery d | FwifiSignal => wifiSignal d
  | FobstacleDistance => obstacleDistance d | FslamRmse => slamRmse d
  | FfeatureDensity => featureDensity d
  | FhydraulicDiameter => hydraulicDiameter d
  | Fslope => slope d | FstepHeight => stepHeight d
  | Froughness => roughness d | Ftraversable => traversable d
  end.

Definition p_field (f : Field) (p : Partial) : option value :=
  match f with
  | Ftimestamp => p_timestamp p | Fmethane => p_methane p
  | FmethaneRaw => p_methaneRaw p | Ftemperature => p_temperature p
  | Fhumidity => p_humidity p | FwindSpeed => p_windSpeed p
  | Fbattery => p_battery p | FwifiSignal => p_wifiSignal p
  | FobstacleDistance => p_obstacleDistance p | FslamRmse => p_slamRmse p
  | FfeatureDensity => p_featureDensity p
  | FhydraulicDiameter => p_hydraulicDiameter p
  | Fslope => p_slope p | FstepHeight => p_stepHeight p
  | Froughness => p_roughness p | Ftraversable => p_traversable p
  end.

(** A record is complete when no field is [undefined]. *)
Definition complete (d : SensorData) : bool :=
  forallb (fun f => is_defined (field f d)) fields.

(** ** WebSocketService.ts *)

(** The error monad of a [try] block: [None] is a thrown exception. *)
Definition bind {A B : Type} (m : option A) (k : A -> option B) : option B :=
  match m with Some a => k a | None => None end.

Notation "'let*' a ':=' m 'in' k" := (bind m (fun a => k))
  (at level 10, a name, m at level 100, k at level 200).

(** [data.k1 || data.k2] *)
Definition either_prop (data : value) (k1 k2 : string) : option value :=
  let* a := get_prop data k1 in
  let* b := get_prop data k2 in
  Some (js_or a b).

(** The [try] block of [socket.onmessage] up to the callback: [parsed] is
    the result of [JSON.parse(event.data)] ([None] when it throws), the
    result is the fragment handed to [onDataCallback] ([None] when the
    block throws before). *)
Definition onmessage (parsed : option value) (now : string) : option Partial :=
  let* data := parsed in
  let* gas := either_prop data "gas" "methane" in
  let* temp := either_prop data "temp" "temperature" in
  let* hum := either_prop data "hum" "humidity" in
  let* bat := either_prop data "bat" "battery" in
  let* rssi := either_prop data "rssi" "wifi" in
  let* dist := either_prop data "dist" "obstacleDistance" in
  let* wind := either_prop data "wind" "windSpeed" in
  Some {| p_timestamp := Some (Str now);
          p_methane := Some gas;
          p_methaneRaw := None;
          p_temperature := Some temp;
          p_humidity := Some hum;
          p_windSpeed := Some wind;
          p_battery := Some bat;
          p_wifiSignal := Some rssi;
          p_obstacleDistance := Some dist;
          p_slamRmse := None;
          p_featureDensity := None;
          p_hydraulicDiameter := None;
          p_slope := None;
          p_stepHeight := None;
          p_roughness := None;
          p_traversable := None |}.

(** [data.k1 || data.k2 || 0] *)
Definition either_prop_or_0 (data : value) (k1 k2 : string) : option value :=
  let* v := either_prop data k1 k2 in
  Some (js_or v (Num 0)).

(** [SerialService.parseData(rawData)]: [parsed] is the result of
    [JSON.parse] on the text matched by [/\{.*\}/] ([None] when there is no
    match or the parse throws); the result is [None] for [null]. *)
Definition parseData (parsed : option value) (now : string) : option Partial :=
  let* data := parsed in
  let* m := either_prop_or_0 data "methane" "m" in
  let* t := either_prop_or_0 data "temperature" "t" in
  let* h := either_prop_or_0 data "humidity" "h" in
  let* b := either_prop_or_0 data "battery" "b" in
  let* s := either_prop_or_0 data "rssi" "s" in
  Some {| p_timestamp := Some (Str now);
          p_methane := Some m;
          p_methaneRaw := None;
          p_temperature := Some t;
          p_humidity := Some h;
          p_windSpeed := None;
          p_battery := Some b;
          p_wifiSignal := Some s;
          p_obstacleDistance := None;
          p_slamRmse := None;
          p_featureDensity := None;
          p_hydraulicDiameter := None;
          p_slope := None;
          p_stepHeight := None;
          p_roughness := None;
          p_traversable := None |}.

(** ** App.tsx *)

(** [arr.slice(-n)] for a positive [n]: the last [n] elements, all of them
    when there are fewer. *)
Definition slice_last {A : Type} (n : nat) (arr : list A) : list A :=
  skipn (List.length arr - n) arr.

(** [arr[arr.length - 1]] *)
Definition last_item {A : Type} (arr : list A) : option A :=
  nth_error arr (List.length arr - 1).

(** The object literal of [updateSensorState]: the defaults, then the spread
    of [newData], whose present keys replace them. *)
Definition completeData (newData : Partial) (now : string) : SensorData :=
  let spread (dflt : value) (k : option value) : value :=
    match k with Some v => v | None => dflt end in
  {| timestamp := spread (Str now) (p_timestamp newData);
     methane := spread (Num 0) (p_methane newData);
     methaneRaw := spread (Num 0) (p_methaneRaw newData);
     temperature := spread (Num 20) (p_temperature newData);
     humidity := spread (Num 50) (p_humidity newData);
     windSpeed := spread (Num 0) (p_windSpeed newData);
     battery := spread (Num 0) (p_battery newData);
     wifiSignal := spread (Num 0) (p_wifiSignal newData);
     obstacleDistance := spread (Num 0) (p_obstacleDistance newData);
     slamRmse := spread (Num 0) (p_slamRmse newData);
     featureDensity := spread (Num 0) (p_featureDensity newData);
     hydraulicDiameter := spread (Num 0) (p_hydraulicDiameter newData);
     slope := spread (Num 0) (p_slope newData);
     stepHeight := spread (Num 0) (p_stepHeight newData);
     roughness := spread (Num 0) (p_roughness newData);
     traversable := spread (Bool true) (p_traversable newData) |}.

(** What the data-loop effect captured when it last ran: the values of its
    render, read by the interval callback until the effect runs again. *)
Record Closure : Type := mkClosure {
  cl_mode : RobotMode;
  cl_connectionStatus : ConnectionStatus;
  cl_isWsConnected : bool;
  cl_sensorData : list SensorData;
  cl_algoConfig : AlgorithmConfig
}.

(** The component's state, the module counter of [mockDataService] and the
    closure of the running interval. *)
Record AppState : Type := mkAppState {
  mode : RobotMode;
  connectionStatus : ConnectionStatus;
  isWsConnected : bool;
  algoConfig : AlgorithmConfig;
  isConfigModalOpen : bool;
  sensorData : list SensorData;     (* History *)
  position : Position;
  history : list TrajectoryPoint;   (* Trajectory *)
  currentTime : float;
  loop : Closure
}.

Definition mode_eqb (a b : RobotMode) : bool :=
  match a, b with FLIGHT, FLIGHT | TRACK, TRACK => true | _, _ => false end.

Definition status_eqb (a b : ConnectionStatus) : bool :=
  match a, b with
  | DISCONNECTED, DISCONNECTED | CONNECTING, CONNECTING
  | CONNECTED, CONNECTED | ERROR, ERROR => true
  | _, _ => false
  end.

(** [connectionStatus === ConnectionStatus.CONNECTED || isWsConnected], on
    the captured values. *)
Definition isConnected (cl : Closure) : bool :=
  status_eqb (cl_connectionStatus cl) CONNECTED || cl_isWsConnected cl.

Definition capture (st : AppState) : Closure :=
  {| cl_mode := mode st;
     cl_connectionStatus := connectionStatus st;
     cl_isWsConnected := isWsConnected st;
     cl_sensorData := sensorData st;
     cl_algoConfig := algoConfig st |}.

Definition set_loop (cl : Closure) (st : AppState) : AppState :=
  mkAppState (mode st) (connectionStatus st) (isWsConnected st)
    (algoConfig st) (isConfigModalOpen st) (sensorData st) (position st)
    (history st) (currentTime st) cl.

(** The effect runs again: the interval is cleared and a new one captures
    the current render. *)
Definition rerun_effect (st : AppState) : AppState :=
  set_loop (capture st) st.

(** The dependencies [mode, connectionStatus, isWsConnected,
    sensorData.length] against those of the last run ([algoConfig] is
    compared by identity, see [setAlgoConfig]). *)
Definition deps_unchanged (st : AppState) : bool :=
  mode_eqb (mode st) (cl_mode (loop st))
  && status_eqb (connectionStatus st) (cl_connectionStatus (loop st))
  && Bool.eqb (isWsConnected st) (cl_isWsConnected (loop st))
  && Nat.eqb (List.length (sensorData st))
       (List.length (cl_sensorData (loop st))).

(** A render after a state change: the effect runs again when a dependency
    changed. *)
Definition render (st : AppState) : AppState :=
  if deps_unchanged st then st else rerun_effect st.

Definition setMode (m : RobotMode) (st : AppState) : AppState :=
  render (mkAppState m (connectionStatus st) (isWsConnected st)
    (algoConfig st) (isConfigModalOpen st) (sensorData st) (position st)
    (history st) (currentTime st) (loop st)).

Definition setConnectionStatus (s : ConnectionStatus) (st : AppState)
    : AppState :=
  render (mkAppState (mode st) s (isWsConnected st)
    (algoConfig st) (isConfigModalOpen st) (sensorData st) (position st)
    (history st) (currentTime st) (loop st)).

Definition setWsConnected (b : bool) (st : AppState) : AppState :=
  render (mkAppState (mode st) (connectionStatus st) b
    (algoConfig st) (isConfigModalOpen st) (sensorData st) (position st)
    (history st) (currentTime st) (loop st)).

Definition setConfigModalOpen (b : bool) (st : AppState) : AppState :=
  render (mkAppState (mode st) (connectionStatus st) (isWsConnected st)
    (algoConfig st) b (sensorData st) (position st)
    (history st) (currentTime st) (loop st)).

(** The object handed to [setAlgoConfig]: the object already in the App's
    state (the modal's [localConfig] while it is the copy of [config] its
    effect stored and no slider or reset replaced it), or a new object
    (every change of a slider and [handleReset] build one). *)
Inductive ConfigRef : Type :=
| SameObject
| NewObject (c : AlgorithmConfig).

Coercion NewObject : AlgorithmConfig >-> ConfigRef.

(** [setAlgoConfig(next)]: React ignores the object already in state; a new
    object replaces it, and as the dependency [algoConfig] then differs from
    the captured object the effect runs again. *)
Definition setAlgoConfig (next : ConfigRef) (st : AppState) : AppState :=
  match next with
  | SameObject => st
  | NewObject c =>
      rerun_effect (mkAppState (mode st) (connectionStatus st)
        (isWsConnected st) c (isConfigModalOpen st) (sensorData st)
        (position st) (history st) (currentTime st) (loop st))
  end.

(** [setSensorData(prev => [...prev.slice(-49), d])] *)
Definition appendSensorData (d : SensorData) (st : AppState) : AppState :=
  mkAppState (mode st) (connectionStatus st) (isWsConnected st)
    (algoConfig st) (isConfigModalOpen st)
    (slice_last 49 (sensorData st) ++ [d]) (position st)
    (history st) (currentTime st) (loop st).

(** [setPosition(newPos)] followed by
    [setHistory(prev => [...prev.slice(-99), newPoint])]. *)
Definition appendTrajectory (newPos : Position) (newPoint : TrajectoryPoint)
    (st : AppState) : AppState :=
  mkAppState (mode st) (connectionStatus st) (isWsConnected st)
    (algoConfig st) (isConfigModalOpen st) (sensorData st) newPos
    (slice_last 99 (history st) ++ [newPoint]) (currentTime st) (loop st).

Definition set_currentTime (t : float) (st : AppState) : AppState :=
  mkAppState (mode st) (connectionStatus st) (isWsConnected st)
    (algoConfig st) (isConfigModalOpen st) (sensorData st) (position st)
    (history st) t (loop st).

(** [updateSensorState(newData)] *)
Definition updateSensorState (newData : Partial) (now : string)
    (st : AppState) : AppState :=
  render (appendSensorData (completeData newData now) st).

(** The callback registered with [webSocketService.setOnData], behind the
    service's [onmessage]. *)
Definition handleWsMessage (parsed : option value) (now : string)
    (st : AppState) : AppState :=
  match onmessage parsed now with
  | Some data => updateSensorState data now st
  | None => st
  end.

(** [handleSerialData(rawData)]:
    [if (parsed && parsed.methane !== undefined) updateSensorState(parsed)]. *)
Definition handleSerialData (parsed : option value) (now : string)
    (st : AppState) : AppState :=
  match parseData parsed now with
  | Some data =>
      match p_methane data with
      | Some m => if is_defined m then updateSensorState data now st else st
      | None => st
      end
  | None => st
  end.

(** [handleSave] of the configuration modal, with [onSave = setAlgoConfig]
    and [onClose = () => setConfigModalOpen(false)]. *)
Definition handleSave (localConfig : ConfigRef) (st : AppState)
    : AppState :=
  setConfigModalOpen false (setAlgoConfig localConfig st).

(** ** The data loop and the session *)

(** What can happen to a mounted console. *)
Inductive event : Type :=
| SetMode (m : RobotMode)
| SetConnectionStatus (s : ConnectionStatus)
| SetWsConnected (b : bool)
| OpenConfig
| CloseConfig
| SaveConfig (localConfig : ConfigRef)
| WsMessage (parsed : option value) (now : string)
| SerialData (parsed : option value) (now : string)
| Tick (now : string) (rnd : nat -> float).

Section DataLoop.

Variables Math_sin Math_cos Math_round : float -> float.
Variable toFixed : float -> nat -> float.

(** The interval callback of the connected branch: the position is still
    simulated, the risk is the methane of the last captured record. *)
Definition externalTick (now : string) (st : AppState) : AppState :=
  let cl := loop st in
  let newPos := generatePosition Math_sin Math_cos (cl_mode cl)
                  (currentTime st) in
  let latestMethane :=
    match last_item (cl_sensorData cl) with
    | Some latestSensor => methane latestSensor
    | None => Num 0
    end in
  let newPoint :=
    {| x := pos_x newPos; y := pos_y newPos;
       riskLevel := latestMethane;
       pt_timestamp := Some (Str now) |} in
  appendTrajectory newPos newPoint st.

(** The interval callback of the disconnected branch: full simulation. *)
Definition syntheticTick (now : string) (rnd : nat -> float)
    (st : AppState) : AppState :=
  let cl := loop st in
  let (newData, t) :=
    generateSensorData Math_sin Math_cos Math_round toFixed
      (cl_mode cl) (Some (cl_algoConfig cl)) now rnd (currentTime st) in
  let st := appendSensorData newData (set_currentTime t st) in
  let newPos := generatePosition Math_sin Math_cos (cl_mode cl) t in
  let newPoint :=
    {| x := pos_x newPos; y := pos_y newPos;
       riskLevel := methane newData;
       pt_timestamp := Some (timestamp newData) |} in
  appendTrajectory newPos newPoint st.

(** One firing of the interval set up by the effect. *)
Definition tick (now : string) (rnd : nat -> float) (st : AppState)
    : AppState :=
  render (if isConnected (loop st)
          then externalTick now st
          else syntheticTick now rnd st).

Definition step (st : AppState) (e : event) : AppState :=
  match e with
  | SetMode m => setMode m st
  | SetConnectionStatus s => setConnectionStatus s st
  | SetWsConnected b => setWsConnected b st
  | OpenConfig => setConfigModalOpen true st
  | CloseConfig => setConfigModalOpen false st
  | SaveConfig localConfig => handleSave localConfig st
  | WsMessage parsed now => handleWsMessage parsed now st
  | SerialData parsed now => handleSerialData parsed now st
  | Tick now rnd => tick now rnd st
  end.

Definition run (st : AppState) (es : list event) : AppState :=
  fold_left step es st.

(** The state after the first render and the first run of the effect;
    [seed] gives the draws of [generateInitialTrajectory]. *)
Definition init (seed : nat -> float) : AppState :=
  rerun_effect
    {| mode := TRACK;
       connectionStatus := DISCONNECTED;
       isWsConnected := false;
       algoConfig := mkAlgorithmConfig 35 0.32 0.05;
       isConfigModalOpen := false;
       sensorData := [];
       position := mkPosition 0 0 0 0;
       history := generateInitialTrajectory Math_sin Math_cos seed;
       currentTime := 0;
       loop := mkClosure TRACK DISCONNECTED false []
                 (mkAlgorithmConfig 35 0.32 0.05) |}.

End DataLoop.

(** ** Outbound commands: types.ts, the services' senders, App.tsx,
    ControlView.tsx and RobotController.tsx *)

Inductive ControlCommand : Type :=
| FORWARD | BACKWARD | LEFT | RIGHT | STOP | UP | DOWN.

(** The string value of the enum member, as a template literal prints it. *)
Definition command_name (cmd : ControlCommand) : string :=
  match cmd with
  | FORWARD => "FORWARD" | BACKWARD => "BACKWARD" | LEFT => "LEFT"
  | RIGHT => "RIGHT" | STOP => "STOP" | UP => "UP" | DOWN => "DOWN"
  end.

Definition mode_name (m : RobotMode) : string :=
  match m with FLIGHT => "flight" | TRACK => "track" end.

Definition upper_ascii (c : ascii) : ascii :=
  let n := nat_of_ascii c in
  if Nat.leb 97 n && Nat.leb n 122 then ascii_of_nat (n - 32) else c.

(** [s.toUpperCase()] on ASCII text. *)
Fixpoint toUpperCase (s : string) : string :=
  match s with
  | EmptyString => EmptyString
  | String c rest => String (upper_ascii c) (toUpperCase rest)
  end.

Definition dquote : string := String (ascii_of_nat 34) EmptyString.
Definition newline : string := String (ascii_of_nat 10) EmptyString.

(** [JSON.stringify] of a string without characters to escape. *)
Definition quoted (s : string) : string := dquote ++ s ++ dquote.

(** [JSON.stringify({ type: 'control', command: cmd })] *)
Definition stringify_control (cmd : ControlCommand) : string :=
  "{" ++ quoted "type" ++ ":" ++ quoted "control" ++ ","
  ++ quoted "command" ++ ":" ++ quoted (command_name cmd) ++ "}".

Inductive ReadyState : Type := WS_CONNECTING | WS_OPEN | WS_CLOSING | WS_CLOSED.

(** What the two service singletons hold when a command is issued:
    [webSocketService.socket] with its [readyState], whether a log callback
    is registered, and the serial service's [isConnected] and [writer]. *)
Record Services : Type := mkServices {
  socket : option ReadyState;
  onLogCallback : bool;
  serial_isConnected : bool;
  serial_writer : bool
}.

(** What a command puts on the wires and in the console log. *)
Inductive output : Type :=
| WsSend (message : string)
| WsLog (msg : string)
| SerialWrite (text : string).

(** [WebSocketService.send(data)] for a string [data]. *)
Definition send (data : string) (sv : Services) : list output :=
  match socket sv with
  | Some WS_OPEN =>
      WsSend data
      :: (if onLogCallback sv then [WsLog ("TX: " ++ data)] else [])
  | _ => []
  end.

(** [SerialService.sendCommand(command)] *)
Definition sendCommand (command : string) (sv : Services) : list output :=
  if negb (serial_isConnected sv) || negb (serial_writer sv) then []
  else [SerialWrite (command ++ newline)].

(** [handleRobotCommand(cmd)] of the App. *)
Definition handleRobotCommand (cmd : ControlCommand) (st : AppState)
    (sv : Services) : list output :=
  (if isWsConnected st then send (stringify_control cmd) sv else [])
  ++ (if status_eqb (connectionStatus st) CONNECTED
      then sendCommand ("CMD:CTRL:" ++ command_name cmd) sv
      else []).

(** [handleSetMode(newMode)] of the control view. *)
Definition handleSetMode (newMode : RobotMode) (st : AppState)
    (sv : Services) : AppState * list output :=
  (setMode newMode st,
   sendCommand ("CMD:MODE:" ++ toUpperCase (mode_name newMode)) sv).

(** [toggleEngine()] of the control view, on its [engineOn] state. *)
Definition toggleEngine (engineOn : bool) (sv : Services)
    : bool * list output :=
  let newState := negb engineOn in
  (newState,
   sendCommand ("CMD:ENGINE:" ++ (if newState then "ON" else "OFF")) sv).

(** The [switch (e.key)] of [handleKeyDown]: the command handed to
    [handlePress], if any. *)
Definition handleKeyDown (key : string) (mode : RobotMode)
    : option ControlCommand :=
  if (key =? "ArrowUp") || (key =? "w") || (key =? "W") then Some FORWARD
  else if (key =? "ArrowDown") || (key =? "s") || (key =? "S")
  then Some BACKWARD
  else if (key =? "ArrowLeft") || (key =? "a") || (key =? "A") then Some LEFT
  else if (key =? "ArrowRight") || (key =? "d") || (key =? "D")
  then Some RIGHT
  else if (key =? "q") || (key =? "Q")
  then match mode with FLIGHT => Some UP | TRACK => None end
  else if (key =? "e") || (key =? "E")
  then match mode with FLIGHT => Some DOWN | TRACK => None end
  else if key =? " " then Some STOP
  else None.

(** [handlePress(cmd)]: the command handed to [onCommand], if any. *)
Definition handlePress (disabled : bool) (cmd : ControlCommand)
    : option ControlCommand :=
  if disabled then None else Some cmd.

(** A key press on the control view: the controller is given
    [disabled = !engineOn] and [onCommand = handleRobotCommand]; its effect
    installs no listener when disabled. *)
Definition pressKey (engineOn : bool) (key : string) (st : AppState)
    (sv : Services) : list output :=
  let disabled := negb engineOn in
  if disabled then []
  else match handleKeyDown key (mode st) with
       | Some cmd =>
           match handlePress disabled cmd with
           | Some cmd => handleRobotCommand cmd st sv
           | None => []
           end
       | None => []
       end.

(** ** ConfigModal.tsx *)

(** What the operator does to the modal's [localConfig]: the three sliders'
    [onChange], carrying [parseFloat(e.target.value)], and [handleReset]. *)
Inductive edit : Type :=
| ChangeSlope (v : float)
| ChangeStepHeight (v : float)
| ChangeRoughness (v : float)
| ResetDefaults.

Definition handleReset : AlgorithmConfig := mkAlgorithmConfig 35 0.32 0.05.

Definition applyEdit (localConfig : AlgorithmConfig) (e : edit)
    : AlgorithmConfig :=
  match e with
  | ChangeSlope v =>
      mkAlgorithmConfig v (maxStepHeight localConfig) (maxRoughness localConfig)
  | ChangeStepHeight v =>
      mkAlgorithmConfig (maxSlope localConfig) v (maxRoughness localConfig)
  | ChangeRoughness v =>
      mkAlgorithmConfig (maxSlope localConfig) (maxStepHeight localConfig) v
  | ResetDefaults => handleReset
  end.

(** The [min] and [max] attributes of the slider an edit comes from. *)
Definition within_slider (e : edit) : bool :=
  match e with
  | ChangeSlope v => (10 <=? v)%float && (v <=? 60)%float
  | ChangeStepHeight v => (0.1 <=? v)%float && (v <=? 0.8)%float
  | ChangeRoughness v => (0.01 <=? v)%float && (v <=? 0.2)%float
  | ResetDefaults => true
  end.

(** The value of the modal's [localConfig] when the active configuration
    is [config]. *)
Definition localValue (config : AlgorithmConfig) (localConfig : ConfigRef)
    : AlgorithmConfig :=
  match localConfig with SameObject => config | NewObject c => c end.

(** An edit stores a new object built from the current [localConfig]. *)
Definition editLocal (config : AlgorithmConfig) (localConfig : ConfigRef)
    (e : edit) : ConfigRef :=
  NewObject (applyEdit (localValue config localConfig) e).

(** Opening the modal (its effect stores [config] itself in [localConfig]),
    the edits, then [handleSave]. *)
Definition editAndSave (es : list edit) (st : AppState) : AppState :=
  let opened := setConfigModalOpen true st in
  let localConfig :=
    fold_left (editLocal (algoConfig opened)) es SameObject in
  handleSave localConfig opened.

(** The App together with the modal's [localConfig]. *)
Record Console : Type := mkConsole {
  app : AppState;
  cm_localConfig : ConfigRef
}.

(** What happens to the console: an event of the App, an edit in the modal,
    or a click on its save button. *)
Inductive action : Type :=
| Other (e : event)
| Change (e : edit)
| Save.

(** The configuration the modal shows. *)
Definition shown (k : Console) : AlgorithmConfig :=
  localValue (algoConfig (app k)) (cm_localConfig k).

Section Modal.

Variables Math_sin Math_cos Math_round : float -> float.
Variable toFixed : float -> nat -> float.

(** One action on the console.  The modal's effect stores [config] in
    [localConfig] when [isOpen] turns true; a closed modal renders nothing,
    so it takes no edit and no save; after a save the modal's object is the
    one in the App's state. *)
Definition act (k : Console) (a : action) : Console :=
  match a with
  | Other OpenConfig =>
      mkConsole (step Math_sin Math_cos Math_round toFixed (app k) OpenConfig)
        (if isConfigModalOpen (app k) then cm_localConfig k else SameObject)
  | Other e =>
      mkConsole (step Math_sin Math_cos Math_round toFixed (app k) e)
        (cm_localConfig k)
  | Change e =>
      if isConfigModalOpen (app k)
      then mkConsole (app k)
             (editLocal (algoConfig (app k)) (cm_localConfig k) e)
      else k
  | Save =>
      if isConfigModalOpen (app k)
      then mkConsole
             (step Math_sin Math_cos Math_round toFixed (app k)
                (SaveConfig (cm_localConfig k)))
             SameObject
      else k
  end.

Definition operate (k : Console) (actions : list action) : Console :=
  fold_left act actions k.

End Modal.

(** The actions a console can receive: an event other than a save (saves
    come from the modal's button), an edit within its slider's [min] and
    [max], a click on save. *)
Definition operable (a : action) : bool :=
  match a with
  | Other e => negb (match e with SaveConfig _ => true | _ => false end)
  | Change e => within_slider e
  | Save => true
  end.

(** ** PassabilityCard.tsx *)

(** [Math.min(a, b)]: NaN if either is NaN, and [-0] is smaller than [+0]. *)
Definition Math_min (a b : float) : float :=
  if is_nan a then a
  else if is_nan b then b
  else if (a <? b)%float then a
  else if (b <? a)%float then b
  else if get_sign a then a else b.

Definition getStabilityColor (val limit : float) : string :=
  if (val <? limit)%float then "bg-green-500" else "bg-red-500".

Definition getStabilityWidth (val limit maxRange : float) : float :=
  Math_min 100 ((val / maxRange) * 100)%float.

(** [m || 0] for a field of type [number | undefined]. *)
Definition or_zero (m : option float) : float :=
  match m with
  | Some v => if truthy (Num v) then v else 0%float
  | None => 0%float
  end.

(** [m && m > limit]: whether the reading is printed in bold red. *)
Definition highlighted (m : option float) (limit : float) : bool :=
  match m with
  | Some v => truthy (Num v) && (limit <? v)%float
  | None => false
  end.

(** The colour of the bar of a reading: [getStabilityColor(m || 0, limit)]. *)
Definition barColor (m : option float) (limit : float) : string :=
  getStabilityColor (or_zero m) limit.

(** ** Vocabulary of the statements *)

(** The number of ticks among the events, and the points that carry a
    timestamp (the seed points carry none). *)
Definition count_ticks (es : list event) : nat :=
  List.length (filter (fun e => match e with Tick _ _ => true | _ => false end)
                 es).

Definition has_timestamp (p : TrajectoryPoint) : bool :=
  match pt_timestamp p with Some _ => true | None => false end.

(** The keys of a fragment of the serial parser. *)
Definition serial_key (f : Field) : bool :=
  match f with
  | Ftimestamp | Fmethane | Ftemperature | Fhumidity | Fbattery
  | FwifiSignal => true
  | _ => false
  end.

(** A value the serial parser can report: truthy, or the number 0. *)
Definition truthy_or_zero (k : option value) : Prop :=
  exists v, k = Some v /\ (truthy v = true \/ v = Num 0).

(** The events of the socket link. *)
Definition is_ws_message (e : event) : bool :=
  match e with WsMessage _ _ => true | _ => false end.

(** The effect's dependencies as it captured them are those of the state. *)
Definition in_sync (st : AppState) : Prop :=
  cl_mode (loop st) = mode st
  /\ cl_connectionStatus (loop st) = connectionStatus st
  /\ cl_isWsConnected (loop st) = isWsConnected st
  /\ List.length (cl_sensorData (loop st)) = List.length (sensorData st).

(** Fragments handed to [updateSensorState] one after the other, each with
    the time of its arrival. *)
Definition deliver (frags : list (Partial * string)) (st : AppState)
    : AppState :=
  fold_left (fun s fn => updateSensorState (fst fn) (snd fn) s) frags st.

(** The risk the next tick of a connected session stores. *)
Definition capturedRisk (cl : Closure) : value :=
  match last_item (cl_sensorData cl) with
  | Some latestSensor => methane latestSensor
  | None => Num 0
  end.

(** The events that replace the configuration. *)
Definition is_save (e : event) : bool :=
  match e with SaveConfig _ => true | _ => false end.

(** A record as the defaults of [updateSensorState] leave its terrain
    fields. *)
Definition terrain_defaulted (d : SensorData) : Prop :=
  slope d = Num 0 /\ stepHeight d = Num 0 /\ roughness d = Num 0
  /\ traversable d = Bool true.

(** A fragment without terrain or verdict keys. *)
Definition no_terrain_keys (p : Partial) : Prop :=
  p_slope p = None /\ p_stepHeight p = None /\ p_roughness p = None
  /\ p_traversable p = None.

(** The buffer [new] is [old], or [old] with one item appended behind its
    last [n]. *)
Definition untouched_or_appended {A : Type} (n : nat) (old new : list A)
    : Prop :=
  new = old \/ exists a, new = slice_last n old ++ [a].

(** The interval callback reads the configuration its effect captured;
    [synced] says that it is the active one. *)
Definition synced (c : AlgorithmConfig) (st : AppState) : Prop :=
  algoConfig st = c /\ cl_algoConfig (loop st) = c.

(** ** Sample inputs *)

(** The limits the session starts with, and those of the configuration
    example. *)
Definition defaultConfig : AlgorithmConfig := mkAlgorithmConfig 35 0.32 0.05.
Definition strictConfig : AlgorithmConfig := mkAlgorithmConfig 20 0.2 0.02.

(** The documented slider ranges of the three limits. *)
Definition inDocumentedRanges (c : AlgorithmConfig) : bool :=
  ((10 <=? maxSlope c) && (maxSlope c <=? 60)
   && (0.1 <=? maxStepHeight c) && (maxStepHeight c <=? 0.8)
   && (0.01 <=? maxRoughness c) && (maxRoughness c <=? 0.2))%float.

(** The active configuration, the one the modal shows and the one the data
    loop holds are within the ranges, and the loop holds the active one. *)
Definition within_ranges (k : Console) : Prop :=
  inDocumentedRanges (algoConfig (app k)) = true
  /\ inDocumentedRanges (shown k) = true
  /\ cl_algoConfig (loop (app k)) = algoConfig (app k).

(** A numeric library for closed examples: a terrain probe that always
    reads the steepest slope. *)
Definition steep_sin (_ : float) : float := 1%float.
Definition flat_cos (_ : float) : float := 0%float.
Definition keep (v : float) : float := v.
Definition keepFixed (v : float) (_ : nat) : float := v.
Definition half (_ : nat) : float := 0.5%float.

(** The fragment [{}] and the fragment [{battery: 42}]. *)
Definition emptyFragment : Partial :=
  mkPartial None None None None None None None None
            None None None None None None None None.

Definition batteryFragment : Partial :=
  mkPartial None None None None None None (Some (Num 42)) None
            None None None None None None None None.

(** A complete record as the synthesizer builds them, on terrain too steep
    to pass. *)
Definition priorRecord : SensorData :=
  {| timestamp := Str "10:15:00";
     methane := Num 0.5;
     methaneRaw := Num 0.55;
     temperature := Num 24.5;
     humidity := Num 86;
     windSpeed := Num 1;
     battery := Num 99;
     wifiSignal := Num 90;
     obstacleDistance := Num 3;
     slamRmse := Num 0.05;
     featureDensity := Num 60;
     hydraulicDiameter := Num 3;
     slope := Num 36;
     stepHeight := Num 0.1;
     roughness := Num 0.01;
     traversable := Bool false |}.

(** A session on the serial link whose History is [records]. *)
Definition sessionWith (records : list SensorData) : AppState :=
  rerun_effect
    (mkAppState TRACK CONNECTED false defaultConfig false records
       (mkPosition 0 0 0 0) [] 0
       (mkClosure TRACK CONNECTED false [] defaultConfig)).

(** Messages of the socket link: [{"gas": 0, "temp": 25.5}],
    [{"temp": 25.5}] and [{"gas": 5}]; and the serial line [{"t": 24}]. *)
Definition wsGasZero : value := Obj [("gas", Num 0); ("temp", Num 25.5)].
Definition wsNoGas : value := Obj [("temp", Num 25.5)].
Definition wsGasFive : value := Obj [("gas", Num 5)].
Definition serialNoGas : value := Obj [("t", Num 24)].

(** A fragment reporting a methane of 5, and a History of 50 records. *)
Definition gasFragment : Partial :=
  mkPartial None (Some (Num 5)) None None None None None None
            None None None None None None None None.

Definition fullHistory : list SensorData := repeat priorRecord 50.

(** The socket open, the port open with its writer, a log callback set. *)
Definition allLinksUp : Services := mkServices (Some WS_OPEN) true true true.

(** ** Comparison of numbers *)

Lemma SFcompare_swap (a b : spec_float) :
  SFcompare b a = option_map CompOpp (SFcompare a b).
Proof.
  destruct a as [sa| sa| |sa ma ea], b as [sb| sb| |sb mb eb]; simpl;
    try reflexivity;
    try (destruct sa; reflexivity); try (destruct sb; reflexivity);
    try (destruct sa, sb; reflexivity).
  destruct sa, sb; try reflexivity; f_equal;
    rewrite (Z.compare_antisym ea eb);
    destruct (ea ?= eb)%Z; simpl; try reflexivity.
  - now rewrite (Pos.compare_cont_antisym ma mb Eq).
  - now rewrite (Pos.compare_cont_antisym ma mb Eq).
Qed.

(** [a === b] excludes [a < b]. *)
Lemma ltb_eqb_false (a b : float) :
  (a =? b)%float = true -> (a <? b)%float = false.
Proof.
  rewrite eqb_spec, ltb_spec. unfold SFeqb, SFltb.
  destruct (SFcompare _ _) as [[]|]; easy.
Qed.

(** [b <= a] excludes [a < b]. *)
Lemma ltb_leb_false (a b : float) :
  (b <=? a)%float = true -> (a <? b)%float = false.
Proof.
  rewrite leb_spec, ltb_spec. unfold SFleb, SFltb.
  rewrite (SFcompare_swap (Prim2SF b) (Prim2SF a)).
  destruct (SFcompare _ _) as [[]|]; easy.
Qed.

Lemma ltb_irrefl (a : float) : (a <? a)%float = false.
Proof.
  rewrite ltb_spec. unfold SFltb.
  pose proof (SFcompare_swap (Prim2SF a) (Prim2SF a)) as H.
  destruct (SFcompare _ _) as [[]|]; easy.
Qed.

(** ** The traversability verdict *)

Lemma isPassable_true_iff (s h g : float) (config : option AlgorithmConfig) :
  isPassable s h g config = true <->
  (s <? limitSlope config)%float = true
  /\ (h <? limitStep config)%float = true
  /\ (g <? limitRough config)%float = true.
Proof.
  unfold isPassable. rewrite !andb_true_iff. tauto.
Qed.

Lemma traversable_generateSensorData sin cos round fixed mode config now
    rnd t :
  traversable
    (fst (generateSensorData sin cos round fixed mode config now rnd t))
  = Bool (isPassable (rawSlope sin (t + 1)%float)
            (rawStepHeight cos (t + 1)%float)
            (rawRoughness (rnd 3%nat)) config).
Proof. reflexivity. Qed.

(** C1: the verdict of a synthesized record is the conjunction of the three
    strict comparisons of the measurements with the configured limits; it is
    true exactly when all three measurements are strictly below their
    limits, a measurement equal to its limit makes it false, and the
    measurements 35, 0.1, 0.01 against the limits 35, 0.32, 0.05 are not
    traversable. *)
Theorem C1_verdict_is_strict_conjunction :
  (forall sin cos round fixed mode c now rnd t,
     traversable
       (fst (generateSensorData sin cos round fixed mode (Some c) now rnd t))
     = Bool ((rawSlope sin (t + 1) <? maxSlope c)
             && (rawStepHeight cos (t + 1) <? maxStepHeight c)
             && (rawRoughness (rnd 3%nat) <? maxRoughness c))%float)
  /\ (forall s h g c,
        isPassable s h g (Some c) = true <->
        (s <? maxSlope c)%float = true
        /\ (h <? maxStepHeight c)%float = true
        /\ (g <? maxRoughness c)%float = true)
  /\ (forall s h g c,
        (s =? maxSlope c)%float = true
        \/ (h =? maxStepHeight c)%float = true
        \/ (g =? maxRoughness c)%float = true ->
        isPassable s h g (Some c) = false)
  /\ (forall s h g c,
        s = maxSlope c \/ h = maxStepHeight c \/ g = maxRoughness c ->
        isPassable s h g (Some c) = false)
  /\ isPassable 35 0.1 0.01 (Some (mkAlgorithmConfig 35 0.32 0.05)) = false.
Proof.
  split; [|split; [|split; [|split]]].
  - intros. apply traversable_generateSensorData.
  - intros. apply isPassable_true_iff.
  - intros s h g c H. unfold isPassable; simpl.
    destruct H as [H|[H|H]]; apply ltb_eqb_false in H; rewrite H;
      rewrite ?andb_false_r; reflexivity.
  - intros s h g c H. unfold isPassable; simpl.
    destruct H as [H|[H|H]]; subst; rewrite ltb_irrefl;
      rewrite ?andb_false_r; reflexivity.
  - reflexivity.
Qed.

(** The slope tie of the example, through the tie clause of C1. *)
Lemma C1_witness_slope_tie :
  (35 =? maxSlope defaultConfig)%float = true
  /\ isPassable 35 0.1 0.01 (Some defaultConfig) = false.
Proof.
  split; [reflexivity|].
  destruct C1_verdict_is_strict_conjunction as (_ & _ & Htie & _).
  apply Htie. left. reflexivity.
Defined.

(** ** Bounded buffers *)

Lemma slice_last_length {A : Type} (n : nat) (arr : list A) :
  List.length (slice_last n arr) = Nat.min n (List.length arr).
Proof. unfold slice_last. rewrite length_skipn. lia. Qed.

Lemma slice_last_short {A : Type} (n : nat) (arr : list A) :
  List.length arr <= n -> slice_last n arr = arr.
Proof.
  intros H. unfold slice_last.
  replace (List.length arr - n) with 0 by lia. reflexivity.
Qed.

Lemma append_bounded {A : Type} (n : nat) (arr : list A) (a : A) :
  List.length (slice_last n arr ++ [a]) <= S n.
Proof. rewrite length_app, slice_last_length. simpl. lia. Qed.

Lemma last_item_app {A : Type} (arr : list A) (a : A) :
  last_item (arr ++ [a]) = Some a.
Proof.
  unfold last_item. rewrite length_app. simpl.
  rewrite nth_error_app2 by lia.
  replace (List.length arr + 1 - 1 - List.length arr) with 0 by lia.
  reflexivity.
Qed.

(** ** The trajectory seed *)

Section Seed.

Variables Math_sin Math_cos : float -> float.
Variable rnd : nat -> float.

Lemma seedLoop_map (n i : nat) (points : list TrajectoryPoint) :
  seedLoop Math_sin Math_cos rnd n i points
  = points ++ map (fun k => seedPoint Math_sin Math_cos k (rnd k)) (seq i n).
Proof.
  revert i points. induction n as [|n IH]; intros i points; simpl.
  - now rewrite app_nil_r.
  - rewrite IH, <- app_assoc. reflexivity.
Qed.

Lemma generateInitialTrajectory_length :
  List.length (generateInitialTrajectory Math_sin Math_cos rnd) = 100.
Proof.
  unfold generateInitialTrajectory. rewrite seedLoop_map.
  rewrite app_nil_l. now rewrite length_map, length_seq.
Qed.

Lemma generateInitialTrajectory_nth (i : nat) :
  i < 100 ->
  nth_error (generateInitialTrajectory Math_sin Math_cos rnd) i
  = Some (seedPoint Math_sin Math_cos i (rnd i)).
Proof.
  intros Hi. unfold generateInitialTrajectory. rewrite seedLoop_map.
  rewrite app_nil_l, nth_error_map, nth_error_seq.
  apply Nat.ltb_lt in Hi. rewrite Hi. reflexivity.
Qed.

End Seed.

(** C9: the Trajectory of the initial state is the seed, which has exactly
    100 points; the point of index [i] lies on the orbit
    [x = 50 + 30 * cos (0.1 * i)], [y = 50 + 30 * sin (0.1 * i)], its risk is
    0.8 plus the jitter ([Math.random() * 0.2]) when [x > 50] and [y < 50]
    and 0.1 plus the jitter elsewhere, and it carries no timestamp; nothing
    but the numeric library and the draws enters the computation. *)
Theorem C9_seed_orbit_and_risk :
  forall (sin cos : float -> float) (rnd : nat -> float),
    history (init sin cos rnd) = generateInitialTrajectory sin cos rnd
    /\ List.length (generateInitialTrajectory sin cos rnd) = 100
    /\ forall i, i < 100 ->
         exists p,
           nth_error (generateInitialTrajectory sin cos rnd) i = Some p
           /\ x p = (50 + 30 * cos (of_nat i * 0.1))%float
           /\ y p = (50 + 30 * sin (of_nat i * 0.1))%float
           /\ riskLevel p
              = Num ((if (50 <? x p)%float && (y p <? 50)%float
                      then 0.8 else 0.1) + rnd i * 0.2)%float
           /\ pt_timestamp p = None.
Proof.
  intros sin cos rnd. split; [reflexivity|]. split.
  - apply generateInitialTrajectory_length.
  - intros i Hi. eexists. split.
    + apply generateInitialTrajectory_nth. exact Hi.
    + repeat split.
Qed.

(** The eighth seed point, through C9. *)
Lemma C9_witness_point_7 :
  7 < 100
  /\ exists p,
       nth_error (generateInitialTrajectory steep_sin flat_cos half) 7 = Some p
       /\ riskLevel p = Num 0.2%float.
Proof.
  split; [lia|].
  destruct (C9_seed_orbit_and_risk steep_sin flat_cos half) as (_ & _ & H).
  destruct (H 7 ltac:(lia)) as (p & Hp & Hx & Hy & Hr & _).
  exists p. split; [exact Hp|].
  rewrite Hr, Hx, Hy. vm_compute. reflexivity.
Defined.

(** ** What a render and a state setter leave alone *)

Lemma render_fields (st : AppState) :
  sensorData (render st) = sensorData st
  /\ history (render st) = history st
  /\ algoConfig (render st) = algoConfig st
  /\ currentTime (render st) = currentTime st.
Proof. unfold render. destruct (deps_unchanged st); repeat split. Qed.

Lemma render_sensorData st : sensorData (render st) = sensorData st.
Proof. apply render_fields. Qed.

Lemma render_history st : history (render st) = history st.
Proof. apply render_fields. Qed.

Lemma render_algoConfig st : algoConfig (render st) = algoConfig st.
Proof. apply render_fields. Qed.

Ltac handlers :=
  repeat match goal with r : ConfigRef |- _ => destruct r end;
  unfold handleSave, handleWsMessage, handleSerialData, updateSensorState,
    setMode, setConnectionStatus, setWsConnected, setConfigModalOpen,
    setAlgoConfig, rerun_effect;
  rewrite ?render_sensorData, ?render_history, ?render_algoConfig; simpl.

Lemma untouched_or_appended_bound {A : Type} (n : nat) (old new : list A) :
  untouched_or_appended n old new ->
  List.length old <= S n -> List.length new <= S n.
Proof.
  intros [->|[a ->]] H; [exact H|apply append_bounded].
Qed.

Section Session.

Variables Math_sin Math_cos Math_round : float -> float.
Variable toFixed : float -> nat -> float.

Local Abbreviation tickM := (tick Math_sin Math_cos Math_round toFixed).
Local Abbreviation stepM := (step Math_sin Math_cos Math_round toFixed).
Local Abbreviation runM := (run Math_sin Math_cos Math_round toFixed).
Local Abbreviation initM := (init Math_sin Math_cos).

Lemma tick_sensorData now rnd st :
  sensorData (tickM now rnd st)
  = if isConnected (loop st) then sensorData st
    else slice_last 49 (sensorData st)
         ++ [fst (generateSensorData Math_sin Math_cos Math_round toFixed
                    (cl_mode (loop st)) (Some (cl_algoConfig (loop st)))
                    now rnd (currentTime st))].
Proof.
  unfold tick. rewrite render_sensorData.
  destruct (isConnected (loop st)); reflexivity.
Qed.

Lemma tick_history now rnd st :
  exists p, history (tickM now rnd st) = slice_last 99 (history st) ++ [p].
Proof.
  unfold tick. rewrite render_history.
  destruct (isConnected (loop st)); eexists; reflexivity.
Qed.

Lemma step_sensorData st e :
  untouched_or_appended 49 (sensorData st) (sensorData (stepM st e)).
Proof.
  destruct e; simpl; try (left; handlers; reflexivity).
  - unfold handleWsMessage. destruct (onmessage parsed now).
    + right. handlers. eexists; reflexivity.
    + left; reflexivity.
  - unfold handleSerialData.
    destruct (parseData parsed now) as [data|]; [|left; reflexivity].
    destruct (p_methane data) as [m|]; [|left; reflexivity].
    destruct (is_defined m); [|left; reflexivity].
    right. handlers. eexists; reflexivity.
  - rewrite tick_sensorData. destruct (isConnected (loop st)).
    + left; reflexivity.
    + right. eexists; reflexivity.
Qed.

Lemma step_history st e :
  untouched_or_appended 99 (history st) (history (stepM st e)).
Proof.
  destruct e; simpl; try (left; handlers; reflexivity).
  - left. unfold handleWsMessage. destruct (onmessage parsed now);
      handlers; reflexivity.
  - left. unfold handleSerialData.
    destruct (parseData parsed now) as [data|]; [|reflexivity].
    destruct (p_methane data) as [m|]; [|reflexivity].
    destruct (is_defined m); handlers; reflexivity.
  - right. apply tick_history.
Qed.

Lemma run_bounded es : forall st,
  List.length (sensorData st) <= 50 ->
  List.length (history st) <= 100 ->
  List.length (sensorData (runM st es)) <= 50
  /\ List.length (history (runM st es)) <= 100.
Proof.
  induction es as [|e es IH]; intros st Hs Hh; simpl.
  - split; assumption.
  - apply IH.
    + exact (untouched_or_appended_bound 49 _ _ (step_sensorData st e) Hs).
    + exact (untouched_or_appended_bound 99 _ _ (step_history st e) Hh).
Qed.

Lemma init_buffers seed :
  sensorData (initM seed) = []
  /\ history (initM seed) = generateInitialTrajectory Math_sin Math_cos seed.
Proof. split; reflexivity. Qed.

End Session.

(** C3: in every state the session reaches, whatever the events and their
    order, History holds at most 50 records and the Trajectory at most 100
    points; and an event leaves a buffer as it was or appends one item
    behind the last 49 (99) items of the buffer, which drops items from the
    front only, and only on overflow, and keeps the order of the rest. *)
Theorem C3_history_and_trajectory_bounded_fifo :
  forall (sin cos round : float -> float) (fixed : float -> nat -> float),
    (forall seed es,
       List.length (sensorData (run sin cos round fixed (init sin cos seed) es))
         <= 50
       /\ List.length (history (run sin cos round fixed (init sin cos seed) es))
         <= 100)
    /\ (forall st e,
          let st' := step sin cos round fixed st e in
          (sensorData st' = sensorData st
           \/ exists d,
                sensorData st'
                = skipn (List.length (sensorData st) - 49) (sensorData st)
                  ++ [d])
          /\ (history st' = history st
              \/ exists p,
                   history st'
                   = skipn (List.length (history st) - 99) (history st)
                     ++ [p])).
Proof.
  intros sin cos round fixed. split.
  - intros seed es. apply run_bounded.
    + simpl. lia.
    + destruct (init_buffers sin cos seed) as [_ ->].
      rewrite generateInitialTrajectory_length. lia.
  - intros st e. split.
    + apply step_sensorData.
    + apply step_history.
Qed.

(** ** Merging a fragment *)

Lemma completeData_field (newData : Partial) (now : string) (f : Field) :
  field f (completeData newData now)
  = match p_field f newData with
    | Some v => v
    | None => field f (completeData emptyFragment now)
    end.
Proof. destruct f; reflexivity. Qed.

Lemma updateSensorState_sensorData newData now st :
  sensorData (updateSensorState newData now st)
  = slice_last 49 (sensorData st) ++ [completeData newData now].
Proof. unfold updateSensorState. now rewrite render_sensorData. Qed.

(** C2, as stated, fails: merging [{battery: 42}] over a History whose last
    record is [priorRecord] appends a record whose [traversable], absent
    from the fragment, is [true] while the prior record's is [false]. *)
Lemma C2_counterexample_prior_not_retained :
  last_item (sensorData (sessionWith [priorRecord])) = Some priorRecord
  /\ p_field Ftraversable batteryFragment = None
  /\ last_item
       (sensorData
          (updateSensorState batteryFragment "10:15:01"
             (sessionWith [priorRecord])))
     = Some (completeData batteryFragment "10:15:01")
  /\ field Ftraversable (completeData batteryFragment "10:15:01")
     <> field Ftraversable priorRecord.
Proof.
  repeat split; try reflexivity.
  simpl. discriminate.
Qed.

(** C2, amended: the record appended for a fragment takes, field by field,
    the fragment's value where the key is present and a fixed default where
    it is absent (the current time for [timestamp], 20 for [temperature],
    50 for [humidity], [true] for [traversable], 0 for the rest), whatever
    the prior records; for [{battery: 42}] it is the defaults with [battery]
    replaced by 42. *)
Theorem C2_merge_onto_defaults :
  forall (newData : Partial) (now : string) (st : AppState),
    sensorData (updateSensorState newData now st)
    = slice_last 49 (sensorData st) ++ [completeData newData now]
    /\ (forall f,
          field f (completeData newData now)
          = match p_field f newData with
            | Some v => v
            | None => field f (completeData emptyFragment now)
            end)
    /\ completeData emptyFragment now
       = mkSensorData (Str now) (Num 0) (Num 0) (Num 20) (Num 50) (Num 0)
           (Num 0) (Num 0) (Num 0) (Num 0) (Num 0) (Num 0) (Num 0) (Num 0)
           (Num 0) (Bool true)
    /\ completeData batteryFragment now
       = mkSensorData (Str now) (Num 0) (Num 0) (Num 20) (Num 50) (Num 0)
           (Num 42) (Num 0) (Num 0) (Num 0) (Num 0) (Num 0) (Num 0) (Num 0)
           (Num 0) (Bool true).
Proof.
  intros newData now st. split; [|split; [|split]].
  - apply updateSensorState_sensorData.
  - intros f. apply completeData_field.
  - reflexivity.
  - reflexivity.
Qed.

(** ** Completeness of appended records *)

Lemma js_or_0_defined (v : value) : is_defined (js_or v (Num 0)) = true.
Proof.
  unfold js_or. destruct (truthy v) eqn:Hv; [|reflexivity].
  destruct v; simpl in *; congruence.
Qed.

(** The guard of [handleSerialData] never fails: [parseData] gives
    [methane] a value in every fragment it returns. *)
Lemma parseData_methane_defined parsed now data :
  parseData parsed now = Some data ->
  exists m, p_methane data = Some m /\ is_defined m = true.
Proof.
  unfold parseData, either_prop_or_0, either_prop, bind.
  destruct parsed as [v|]; [|discriminate].
  destruct (get_prop v "methane"); [|discriminate].
  destruct (get_prop v "m"); [|discriminate].
  destruct (get_prop v "temperature"); [|discriminate].
  destruct (get_prop v "t"); [|discriminate].
  destruct (get_prop v "humidity"); [|discriminate].
  destruct (get_prop v "h"); [|discriminate].
  destruct (get_prop v "battery"); [|discriminate].
  destruct (get_prop v "b"); [|discriminate].
  destruct (get_prop v "rssi"); [|discriminate].
  destruct (get_prop v "s"); [|discriminate].
  intros H. injection H as <-. simpl.
  eexists. split; [reflexivity|apply js_or_0_defined].
Qed.

(** The serial link does default every key it reports: its records are
    complete. *)
Lemma serial_record_complete parsed now p :
  parseData parsed now = Some p -> complete (completeData p now) = true.
Proof.
  destruct parsed as [[]|]; simpl; try discriminate;
    intros H; injection H as <-;
    unfold complete, either_prop_or_0; simpl;
    rewrite ?js_or_0_defined; reflexivity.
Qed.

(** C4, at the failing input: the socket message [{"gas": 0, "temp": 25.5}]
    appends a record whose [methane] (and [humidity], [battery],
    [wifiSignal], [obstacleDistance], [windSpeed]) is [undefined]: the
    record is not complete. *)
Theorem C4_ws_record_incomplete :
  forall (now : string) (st : AppState),
    exists d,
      sensorData (handleWsMessage (Some wsGasZero) now st)
      = slice_last 49 (sensorData st) ++ [d]
      /\ methane d = Undefined
      /\ humidity d = Undefined
      /\ battery d = Undefined
      /\ temperature d = Num 25.5
      /\ complete d = false.
Proof.
  intros now st. eexists. split.
  - unfold handleWsMessage. simpl. apply updateSensorState_sensorData.
  - repeat split.
Qed.

(** C6, at the failing inputs: the serial line [{"t": 24}] and the socket
    message [{"temp": 25.5}] carry no gas key, and each appends a record to
    History (with [methane] 0 on the serial link, [undefined] on the
    socket). *)
Theorem C6_fragment_without_gas_is_appended :
  forall (now : string) (st : AppState),
    get_prop serialNoGas "methane" = Some Undefined
    /\ get_prop serialNoGas "m" = Some Undefined
    /\ get_prop wsNoGas "gas" = Some Undefined
    /\ get_prop wsNoGas "methane" = Some Undefined
    /\ (exists d,
          sensorData (handleSerialData (Some serialNoGas) now st)
          = slice_last 49 (sensorData st) ++ [d]
          /\ methane d = Num 0 /\ temperature d = Num 24)
    /\ (exists d,
          sensorData (handleWsMessage (Some wsNoGas) now st)
          = slice_last 49 (sensorData st) ++ [d]
          /\ methane d = Undefined /\ temperature d = Num 25.5).
Proof.
  intros now st. repeat split.
  - eexists. split.
    + unfold handleSerialData. simpl. apply updateSensorState_sensorData.
    + split; reflexivity.
  - eexists. split.
    + unfold handleWsMessage. simpl. apply updateSensorState_sensorData.
    + split; reflexivity.
Qed.

(** ** Replacing the configuration *)

Lemma handleSave_algoConfig (c : AlgorithmConfig) (st : AppState) :
  algoConfig (handleSave c st) = c
  /\ cl_algoConfig (loop (handleSave c st)) = c.
Proof.
  unfold handleSave, setConfigModalOpen, setAlgoConfig, render.
  match goal with |- context [deps_unchanged ?s] =>
    destruct (deps_unchanged s) end; split; reflexivity.
Qed.

(** ** Records under external authority *)

Lemma onmessage_no_terrain parsed now p :
  onmessage parsed now = Some p -> no_terrain_keys p.
Proof.
  destruct parsed as [[]|]; simpl; try discriminate;
    intros H; injection H as <-; repeat split.
Qed.

Lemma parseData_no_terrain parsed now p :
  parseData parsed now = Some p -> no_terrain_keys p.
Proof.
  destruct parsed as [[]|]; simpl; try discriminate;
    intros H; injection H as <-; repeat split.
Qed.

Lemma completeData_terrain p now :
  no_terrain_keys p -> terrain_defaulted (completeData p now).
Proof.
  intros (Hs & Hh & Hr & Ht). unfold terrain_defaulted, completeData; simpl.
  rewrite Hs, Hh, Hr, Ht. repeat split.
Qed.

(** C10: neither transport parser produces a terrain or verdict key, and
    whatever the state (and so the active configuration), a record appended
    for a socket message or a serial line has [slope], [stepHeight] and
    [roughness] 0 and [traversable] [true]. *)
Theorem C10_external_records_terrain_defaulted :
  forall (parsed : option value) (now : string) (st : AppState),
    match onmessage parsed now with
    | Some p =>
        no_terrain_keys p
        /\ exists d,
             sensorData (handleWsMessage parsed now st)
             = slice_last 49 (sensorData st) ++ [d]
             /\ terrain_defaulted d
    | None => sensorData (handleWsMessage parsed now st) = sensorData st
    end
    /\ match parseData parsed now with
       | Some p =>
           no_terrain_keys p
           /\ exists d,
                sensorData (handleSerialData parsed now st)
                = slice_last 49 (sensorData st) ++ [d]
                /\ terrain_defaulted d
       | None => sensorData (handleSerialData parsed now st) = sensorData st
       end.
Proof.
  intros parsed now st. split.
  - unfold handleWsMessage.
    destruct (onmessage parsed now) as [p|] eqn:Hp; [|reflexivity].
    pose proof (onmessage_no_terrain _ _ _ Hp) as Hk.
    split; [exact Hk|]. eexists. split.
    + apply updateSensorState_sensorData.
    + apply completeData_terrain, Hk.
  - unfold handleSerialData.
    destruct (parseData parsed now) as [p|] eqn:Hp; [|reflexivity].
    pose proof (parseData_no_terrain _ _ _ Hp) as Hk.
    destruct (parseData_methane_defined _ _ _ Hp) as (m & -> & ->).
    split; [exact Hk|]. eexists. split.
    + apply updateSensorState_sensorData.
    + apply completeData_terrain, Hk.
Qed.

(** ** The configuration read by the data loop *)

Lemma render_synced c st : synced c st -> synced c (render st).
Proof.
  intros [H1 H2]. unfold synced, render.
  destruct (deps_unchanged st); simpl; auto.
Qed.

Section Reconfiguration.

Variables Math_sin Math_cos Math_round : float -> float.
Variable toFixed : float -> nat -> float.

Local Abbreviation stepM := (step Math_sin Math_cos Math_round toFixed).
Local Abbreviation runM := (run Math_sin Math_cos Math_round toFixed).
Local Abbreviation synthM :=
  (generateSensorData Math_sin Math_cos Math_round toFixed).

Lemma step_synced c st e :
  is_save e = false -> synced c st -> synced c (stepM st e).
Proof.
  intros He Hs.
  destruct e; simpl in *; try discriminate;
    try (apply render_synced; exact Hs).
  - unfold handleWsMessage. destruct (onmessage parsed now); [|exact Hs].
    apply render_synced. exact Hs.
  - unfold handleSerialData.
    destruct (parseData parsed now) as [data|]; [|exact Hs].
    destruct (p_methane data) as [m|]; [|exact Hs].
    destruct (is_defined m); [|exact Hs].
    apply render_synced. exact Hs.
  - unfold tick. apply render_synced.
    destruct (isConnected (loop st)); [exact Hs|].
    unfold syntheticTick.
    destruct (generateSensorData _ _ _ _ _ _ _ _ _). exact Hs.
Qed.

Lemma run_synced c es : forall st,
  forallb (fun e => negb (is_save e)) es = true ->
  synced c st -> synced c (runM st es).
Proof.
  induction es as [|e es IH]; intros st Hes Hs; simpl in *.
  - exact Hs.
  - apply andb_true_iff in Hes as [He Hes].
    apply IH; [exact Hes|].
    apply step_synced; [|exact Hs].
    now destruct (is_save e).
Qed.

Lemma save_synced c st : synced c (stepM st (SaveConfig c)).
Proof. simpl. split; apply handleSave_algoConfig. Qed.

Lemma synthetic_tick_record now rnd st :
  isConnected (loop st) = false ->
  sensorData (stepM st (Tick now rnd))
  = slice_last 49 (sensorData st)
    ++ [fst (synthM (cl_mode (loop st)) (Some (cl_algoConfig (loop st)))
               now rnd (currentTime st))].
Proof.
  intros H. simpl. rewrite tick_sensorData, H. reflexivity.
Qed.

Lemma external_tick_point now rnd st :
  isConnected (loop st) = true ->
  exists p,
    history (stepM st (Tick now rnd)) = slice_last 99 (history st) ++ [p]
    /\ riskLevel p
       = match last_item (cl_sensorData (loop st)) with
         | Some latestSensor => methane latestSensor
         | None => Num 0
         end.
Proof.
  intros H. simpl. unfold tick. rewrite render_history, H.
  eexists. split; reflexivity.
Qed.

End Reconfiguration.

(** C7: after the configuration is replaced by [c], and whatever happens
    next short of another replacement, a tick of the simulation appends the
    record synthesized against [c]: its verdict is the decision on the raw
    measurements with the limits of [c], and it is [false] as soon as one
    raw measurement equals or exceeds its limit.  With no event in between
    this is the very next tick; [c] may be [{20, 0.2, 0.02}]. *)
Theorem C7_new_config_governs_next_ticks :
  forall (sin cos round : float -> float) (fixed : float -> nat -> float)
         (st : AppState) (c : AlgorithmConfig) (es : list event)
         (now : string) (rnd : nat -> float),
    forallb (fun e => negb (is_save e)) es = true ->
    let st1 := run sin cos round fixed
                 (step sin cos round fixed st (SaveConfig c)) es in
    isConnected (loop st1) = false ->
    let r := fst (generateSensorData sin cos round fixed (cl_mode (loop st1))
                    (Some c) now rnd (currentTime st1)) in
    let t := (currentTime st1 + 1)%float in
    sensorData (step sin cos round fixed st1 (Tick now rnd))
    = slice_last 49 (sensorData st1) ++ [r]
    /\ traversable r
       = Bool (isPassable (rawSlope sin t) (rawStepHeight cos t)
                 (rawRoughness (rnd 3%nat)) (Some c))
    /\ ((maxSlope c <=? rawSlope sin t)%float = true
        \/ (maxStepHeight c <=? rawStepHeight cos t)%float = true
        \/ (maxRoughness c <=? rawRoughness (rnd 3%nat))%float = true ->
        traversable r = Bool false).
Proof.
  intros sin cos round fixed st c es now rnd Hes st1 Hdis r t.
  assert (Hsync : synced c st1).
  { apply run_synced; [exact Hes|apply save_synced]. }
  destruct Hsync as [_ Hcl].
  split; [|split].
  - rewrite synthetic_tick_record by exact Hdis.
    subst r. rewrite Hcl. reflexivity.
  - apply traversable_generateSensorData.
  - intros H. subst r. rewrite traversable_generateSensorData.
    f_equal. unfold isPassable; simpl. fold t.
    destruct H as [H|[H|H]]; apply ltb_leb_false in H; rewrite H;
      rewrite ?andb_false_r; reflexivity.
Qed.

(** A session that replaces the configuration by [{20, 0.2, 0.02}] at its
    start, ticks once and switches to flight: the next tick, on a probe
    reading a slope of 40 degrees, is not traversable. *)
Lemma C7_witness_strict_config :
  isConnected
    (loop (run steep_sin flat_cos keep keepFixed
             (step steep_sin flat_cos keep keepFixed
                (init steep_sin flat_cos half) (SaveConfig strictConfig))
             [Tick "10:15:01" half; SetMode FLIGHT]))
  = false
  /\ (maxSlope strictConfig <=? rawSlope steep_sin (1 + 1))%float = true
  /\ traversable
       (fst (generateSensorData steep_sin flat_cos keep keepFixed FLIGHT
               (Some strictConfig) "10:15:02" half 1%float))
     = Bool false.
Proof.
  split; [reflexivity|]. split; [vm_compute; reflexivity|].
  pose proof (C7_new_config_governs_next_ticks steep_sin flat_cos keep
                keepFixed (init steep_sin flat_cos half) strictConfig
                [Tick "10:15:01" half; SetMode FLIGHT]
                "10:15:02" half eq_refl eq_refl) as H.
  destruct H as (_ & _ & H).
  apply H. left. vm_compute. reflexivity.
Defined.

(** C8, at the failing input: with the socket connected, the message
    [{"gas": 5}] followed by a tick appends a Trajectory point whose
    [riskLevel] is 5, above 1. *)
Theorem C8_external_risk_above_one :
  forall (sin cos round : float -> float) (fixed : float -> nat -> float)
         (seed rnd : nat -> float) (now1 now2 : string),
    let st := run sin cos round fixed (init sin cos seed)
                [SetWsConnected true; WsMessage (Some wsGasFive) now1] in
    exists p,
      history (step sin cos round fixed st (Tick now2 rnd))
      = slice_last 99 (history st) ++ [p]
      /\ riskLevel p = Num 5
      /\ (1 <? 5)%float = true.
Proof.
  intros sin cos round fixed seed rnd now1 now2 st.
  destruct (external_tick_point sin cos round fixed now2 rnd st eq_refl)
    as (p & Hp & Hr).
  exists p. split; [exact Hp|]. split; [exact Hr|reflexivity].
Qed.

(** ** The closure of the data loop *)

Lemma mode_eqb_eq (a b : RobotMode) : mode_eqb a b = true <-> a = b.
Proof. destruct a, b; simpl; split; congruence. Qed.

Lemma status_eqb_eq (a b : ConnectionStatus) : status_eqb a b = true <-> a = b.
Proof. destruct a, b; simpl; split; congruence. Qed.

Lemma deps_unchanged_in_sync (st : AppState) :
  deps_unchanged st = true <-> in_sync st.
Proof.
  unfold deps_unchanged, in_sync.
  rewrite !andb_true_iff, mode_eqb_eq, status_eqb_eq, Bool.eqb_true_iff,
    Nat.eqb_eq.
  intuition congruence.
Qed.

Lemma render_unchanged (st : AppState) : in_sync st -> render st = st.
Proof.
  intros H. apply deps_unchanged_in_sync in H. unfold render. now rewrite H.
Qed.

Lemma render_in_sync (st : AppState) : in_sync (render st).
Proof.
  unfold render. destruct (deps_unchanged st) eqn:H.
  - now apply deps_unchanged_in_sync.
  - repeat split.
Qed.

Lemma render_rest (st : AppState) :
  mode (render st) = mode st
  /\ connectionStatus (render st) = connectionStatus st
  /\ isWsConnected (render st) = isWsConnected st
  /\ position (render st) = position st
  /\ currentTime (render st) = currentTime st.
Proof. unfold render. destruct (deps_unchanged st); repeat split. Qed.

Lemma in_sync_isConnected (st : AppState) :
  in_sync st ->
  isConnected (loop st)
  = status_eqb (connectionStatus st) CONNECTED || isWsConnected st.
Proof. intros (_ & Hs & Hw & _). unfold isConnected. now rewrite Hs, Hw. Qed.

Section Authority.

Variables Math_sin Math_cos Math_round : float -> float.
Variable toFixed : float -> nat -> float.

Local Abbreviation tickM := (tick Math_sin Math_cos Math_round toFixed).
Local Abbreviation stepM := (step Math_sin Math_cos Math_round toFixed).
Local Abbreviation runM := (run Math_sin Math_cos Math_round toFixed).
Local Abbreviation synthM :=
  (generateSensorData Math_sin Math_cos Math_round toFixed).
Local Abbreviation positionM := (generatePosition Math_sin Math_cos).

Lemma step_in_sync st e : in_sync st -> in_sync (stepM st e).
Proof.
  intros H. destruct e; simpl; try apply render_in_sync.
  - unfold handleWsMessage. destruct (onmessage parsed now); [|exact H].
    apply render_in_sync.
  - unfold handleSerialData.
    destruct (parseData parsed now) as [data|]; [|exact H].
    destruct (p_methane data) as [m|]; [|exact H].
    destruct (is_defined m); [|exact H].
    apply render_in_sync.
Qed.

Lemma step_config_captured st e :
  cl_algoConfig (loop st) = algoConfig st ->
  cl_algoConfig (loop (stepM st e)) = algoConfig (stepM st e).
Proof.
  intros H. destruct (is_save e) eqn:He.
  - destruct e as [| | | | |[|c]| | |]; try discriminate; simpl.
    + unfold handleSave, setAlgoConfig, setConfigModalOpen.
      match goal with |- context [render ?s] =>
        destruct (render_synced (algoConfig st) s (conj eq_refl H))
          as [-> ->] end.
      reflexivity.
    + destruct (handleSave_algoConfig c st) as [-> ->]. reflexivity.
  - destruct (step_synced Math_sin Math_cos Math_round toFixed
                (algoConfig st) st e He (conj eq_refl H)) as [-> ->].
    reflexivity.
Qed.

Lemma run_in_sync es : forall st,
  in_sync st /\ cl_algoConfig (loop st) = algoConfig st ->
  in_sync (runM st es)
  /\ cl_algoConfig (loop (runM st es)) = algoConfig (runM st es).
Proof.
  induction es as [|e es IH]; intros st [Hs Hc]; simpl.
  - split; assumption.
  - apply IH. split; [now apply step_in_sync|now apply step_config_captured].
Qed.

Lemma run_reachable seed es :
  in_sync (runM (init Math_sin Math_cos seed) es)
  /\ cl_algoConfig (loop (runM (init Math_sin Math_cos seed) es))
     = algoConfig (runM (init Math_sin Math_cos seed) es).
Proof. apply run_in_sync. repeat split. Qed.

(** An external tick in a state whose closure is in sync is exactly the
    append of one Trajectory point. *)
Lemma external_tick_state now rnd st :
  in_sync st -> isConnected (loop st) = true ->
  tickM now rnd st
  = appendTrajectory (positionM (mode st) (currentTime st))
      {| x := pos_x (positionM (mode st) (currentTime st));
         y := pos_y (positionM (mode st) (currentTime st));
         riskLevel := capturedRisk (loop st);
         pt_timestamp := Some (Str now) |} st.
Proof.
  intros Hs Hc. unfold tick. rewrite Hc. unfold externalTick.
  destruct Hs as (Hm & Hs).
  rewrite Hm. apply render_unchanged. repeat split; try apply Hs. exact Hm.
Qed.

End Authority.

(** ** Ticks of the data loop *)

Lemma external_ticks_invariant sin cos round fixed
    (ticks : list (string * (nat -> float))) : forall st,
  in_sync st -> isConnected (loop st) = true ->
  let st' := run sin cos round fixed st
               (map (fun t => Tick (fst t) (snd t)) ticks) in
  in_sync st' /\ loop st' = loop st /\ mode st' = mode st
  /\ sensorData st' = sensorData st /\ currentTime st' = currentTime st
  /\ (ticks <> [] ->
      position st' = generatePosition sin cos (mode st) (currentTime st)).
Proof.
  induction ticks as [|[now rnd] ticks IH]; intros st Hs Hc; simpl.
  - repeat split; try apply Hs; try congruence.
  - pose proof (external_tick_state sin cos round fixed now rnd st Hs Hc)
      as Ht.
    set (st1 := tick sin cos round fixed now rnd st) in *.
    assert (Hs1 : in_sync st1) by (rewrite Ht; exact Hs).
    assert (Hc1 : isConnected (loop st1) = true) by (rewrite Ht; exact Hc).
    destruct (IH st1 Hs1 Hc1) as (H1 & H2 & H3 & H4 & H5 & H6).
    split; [exact H1|].
    split; [rewrite H2, Ht; reflexivity|].
    split; [rewrite H3, Ht; reflexivity|].
    split; [rewrite H4, Ht; reflexivity|].
    split; [rewrite H5, Ht; reflexivity|].
    intros _. destruct ticks as [|t ticks].
    + simpl. fold st1. rewrite Ht. reflexivity.
    + rewrite H6 by discriminate. rewrite Ht. reflexivity.
Qed.

(** While a transport is connected the counter never advances, so however
    many ticks fire, History is untouched and the position stays at the one
    orbit point of the frozen counter. *)
Theorem external_ticks_freeze_position :
  forall (sin cos round : float -> float) (fixed : float -> nat -> float)
         (ticks : list (string * (nat -> float))) (st : AppState),
    in_sync st -> isConnected (loop st) = true -> ticks <> [] ->
    let st' := run sin cos round fixed st
                 (map (fun t => Tick (fst t) (snd t)) ticks) in
    sensorData st' = sensorData st
    /\ currentTime st' = currentTime st
    /\ position st' = generatePosition sin cos (mode st) (currentTime st).
Proof.
  intros sin cos round fixed ticks st Hs Hc Hne.
  destruct (external_ticks_invariant sin cos round fixed ticks st Hs Hc)
    as (_ & _ & _ & H4 & H5 & H6).
  split; [exact H4|]. split; [exact H5|]. apply H6, Hne.
Qed.

Lemma external_ticks_freeze_position_witness :
  position
    (run steep_sin flat_cos keep keepFixed (sessionWith [priorRecord])
       [Tick "10:15:01" half; Tick "10:15:02" half; Tick "10:15:03" half])
  = generatePosition steep_sin flat_cos TRACK 0%float.
Proof.
  apply (external_ticks_freeze_position steep_sin flat_cos keep keepFixed
           [("10:15:01", half); ("10:15:02", half); ("10:15:03", half)]
           (sessionWith [priorRecord])).
  - repeat split.
  - reflexivity.
  - discriminate.
Defined.

Lemma append_length_changes {A : Type} (arr : list A) (a : A) :
  List.length arr <= 50 ->
  Nat.eqb (List.length (slice_last 49 arr ++ [a])) (List.length arr)
  = negb (Nat.ltb (List.length arr) 50).
Proof.
  intros H. rewrite length_app, slice_last_length. cbn [List.length].
  destruct (Nat.ltb_spec (List.length arr) 50).
  - apply Nat.eqb_neq. lia.
  - apply Nat.eqb_eq. lia.
Qed.

(** The effect depends on [sensorData.length], not on [sensorData]: a
    fragment that arrives while History holds fewer than 50 records makes
    the effect run again, and the next tick stores the fragment's methane as
    risk; once History holds 50 records the length no longer changes, the
    interval keeps its old closure, and the next tick stores the methane of
    the record captured before, whatever the fragment says. *)
Theorem risk_is_stale_once_history_is_full :
  forall (sin cos round : float -> float) (fixed : float -> nat -> float)
         (st : AppState) (newData : Partial) (now now' : string)
         (rnd : nat -> float),
    in_sync st -> isConnected (loop st) = true ->
    List.length (sensorData st) <= 50 ->
    let st1 := updateSensorState newData now st in
    exists p,
      history (tick sin cos round fixed now' rnd st1)
      = slice_last 99 (history st) ++ [p]
      /\ riskLevel p
         = if Nat.ltb (List.length (sensorData st)) 50
           then methane (completeData newData now)
           else capturedRisk (loop st).
Proof.
  intros sin cos round fixed st newData now now' rnd Hs Hc Hlen st1.
  assert (Hs1 : in_sync st1) by apply render_in_sync.
  assert (Hloop : loop st1
                  = if Nat.ltb (List.length (sensorData st)) 50
                    then capture (appendSensorData
                                    (completeData newData now) st)
                    else loop st).
  { subst st1. unfold updateSensorState, render, deps_unchanged.
    destruct Hs as (Hm & Hcs & Hw & Hl). simpl.
    rewrite Hm, Hcs, Hw, Hl.
    rewrite (proj2 (mode_eqb_eq _ _) eq_refl),
      (proj2 (status_eqb_eq _ _) eq_refl), Bool.eqb_reflx.
    simpl. rewrite append_length_changes by exact Hlen.
    destruct (Nat.ltb _ 50); reflexivity. }
  assert (Hc1 : isConnected (loop st1) = true).
  { rewrite Hloop. destruct (Nat.ltb _ 50); [|exact Hc].
    destruct Hs as (_ & Hcs & Hw & _). unfold isConnected in *. simpl.
    now rewrite <- Hcs, <- Hw. }
  rewrite (external_tick_state sin cos round fixed now' rnd st1 Hs1 Hc1).
  assert (Hh : history st1 = history st).
  { subst st1. unfold updateSensorState. now rewrite render_history. }
  eexists. split.
  - unfold appendTrajectory. cbn [history]. rewrite Hh. reflexivity.
  - cbn [riskLevel]. rewrite Hloop. destruct (Nat.ltb _ 50); [|reflexivity].
    unfold capturedRisk, capture, appendSensorData.
    cbn [cl_sensorData sensorData]. now rewrite last_item_app.
Qed.

(** In every state the session reaches, the closure of the interval holds
    the live connection flags, mode and configuration: a tick appends a
    record to History exactly when the serial status is not [CONNECTED] and
    the socket is not connected, and that record is synthesized for the
    current mode against the active configuration. *)
Theorem authority_follows_connection_flags :
  forall (sin cos round : float -> float) (fixed : float -> nat -> float)
         (seed : nat -> float) (es : list event) (now : string)
         (rnd : nat -> float),
    let st := run sin cos round fixed (init sin cos seed) es in
    sensorData (step sin cos round fixed st (Tick now rnd))
    = if status_eqb (connectionStatus st) CONNECTED || isWsConnected st
      then sensorData st
      else slice_last 49 (sensorData st)
           ++ [fst (generateSensorData sin cos round fixed (mode st)
                      (Some (algoConfig st)) now rnd (currentTime st))].
Proof.
  intros sin cos round fixed seed es now rnd st.
  destruct (run_reachable sin cos round fixed seed es) as [Hs Hc].
  fold st in Hs, Hc. simpl. rewrite tick_sensorData.
  rewrite (in_sync_isConnected st Hs), Hc.
  destruct Hs as (-> & _). reflexivity.
Qed.

Lemma risk_is_stale_once_history_is_full_witness :
  exists p,
    history
      (tick steep_sin flat_cos keep keepFixed "10:15:02" half
         (updateSensorState gasFragment "10:15:01" (sessionWith fullHistory)))
    = slice_last 99 (history (sessionWith fullHistory)) ++ [p]
    /\ riskLevel p = Num 0.5.
Proof.
  destruct (risk_is_stale_once_history_is_full steep_sin flat_cos keep
              keepFixed (sessionWith fullHistory) gasFragment "10:15:01"
              "10:15:02" half)
    as (p & Hp & Hr).
  - repeat split.
  - reflexivity.
  - vm_compute. repeat constructor.
  - exists p. split; [exact Hp|]. rewrite Hr. reflexivity.
Defined.

(** ** The contents of History *)

Lemma slice_last_app_one {A : Type} (n : nat) (arr : list A) (a : A) :
  slice_last n arr ++ [a] = slice_last (S n) (arr ++ [a]).
Proof.
  unfold slice_last. rewrite length_app, skipn_app. cbn [List.length].
  replace (List.length arr + 1 - S n) with (List.length arr - n) by lia.
  replace (List.length arr - n - List.length arr) with 0 by lia.
  reflexivity.
Qed.

Lemma slice_last_absorb {A : Type} (n : nat) (arr rest : list A) :
  slice_last n (slice_last n arr ++ rest) = slice_last n (arr ++ rest).
Proof.
  unfold slice_last. rewrite !length_app, length_skipn.
  destruct (Nat.le_gt_cases (List.length arr) n) as [H|H].
  - replace (List.length arr - n) with 0 by lia.
    rewrite Nat.sub_0_r. reflexivity.
  - replace (List.length arr - (List.length arr - n) + List.length rest - n)
      with (List.length rest) by lia.
    replace (List.length arr + List.length rest - n)
      with (List.length rest + (List.length arr - n)) by lia.
    rewrite <- skipn_skipn. f_equal.
    rewrite skipn_app.
    replace (List.length arr - n - List.length arr) with 0 by lia.
    reflexivity.
Qed.

Lemma deliver_sensorData (frags : list (Partial * string)) : forall st,
  frags <> [] ->
  sensorData (deliver frags st)
  = slice_last 50
      (sensorData st
       ++ map (fun fn => completeData (fst fn) (snd fn)) frags).
Proof.
  induction frags as [|[newData now] frags IH]; intros st Hne;
    [congruence|].
  cbn [deliver fold_left fst snd map].
  destruct frags as [|f frags].
  - cbn [fold_left map]. rewrite updateSensorState_sensorData.
    apply slice_last_app_one.
  - change (fold_left _ (f :: frags) ?s) with (deliver (f :: frags) s).
    rewrite IH by discriminate.
    rewrite updateSensorState_sensorData, slice_last_app_one.
    rewrite slice_last_absorb, <- app_assoc. reflexivity.
Qed.

(** History is a window: after any number of fragments are merged one after
    the other into a History of at most 50 records, History is exactly the
    last 50 of the old records followed by the merged ones, in order of
    arrival. *)
Theorem history_is_the_last_50_records :
  forall (frags : list (Partial * string)) (st : AppState),
    List.length (sensorData st) <= 50 ->
    sensorData (deliver frags st)
    = slice_last 50
        (sensorData st
         ++ map (fun fn => completeData (fst fn) (snd fn)) frags).
Proof.
  intros frags st Hlen. destruct frags as [|f frags].
  - cbn [deliver fold_left map]. rewrite app_nil_r.
    symmetry. apply slice_last_short. exact Hlen.
  - apply deliver_sensorData. discriminate.
Qed.

Lemma history_is_the_last_50_records_witness :
  sensorData
    (deliver [(batteryFragment, "10:15:01"); (gasFragment, "10:15:02")]
       (sessionWith fullHistory))
  = repeat priorRecord 48
    ++ [completeData batteryFragment "10:15:01";
        completeData gasFragment "10:15:02"].
Proof.
  rewrite (history_is_the_last_50_records
             [(batteryFragment, "10:15:01"); (gasFragment, "10:15:02")]
             (sessionWith fullHistory)).
  - reflexivity.
  - vm_compute. repeat constructor.
Defined.

(** ** Which sessions keep History complete *)

Lemma forallb_skipn {A : Type} (P : A -> bool) (n : nat) : forall l,
  forallb P l = true -> forallb P (skipn n l) = true.
Proof.
  induction n as [|n IH]; intros [|a l] H; simpl; auto.
  simpl in H. apply andb_true_iff in H as [_ H]. now apply IH.
Qed.

Lemma forallb_append {A : Type} (P : A -> bool) (n : nat) (l : list A) a :
  forallb P l = true -> P a = true ->
  forallb P (slice_last n l ++ [a]) = true.
Proof.
  intros Hl Ha. rewrite forallb_app. simpl. rewrite Ha.
  unfold slice_last. now rewrite forallb_skipn.
Qed.

Lemma synthesized_complete sin cos round fixed mode config now rnd t :
  complete (fst (generateSensorData sin cos round fixed mode config now rnd t))
  = true.
Proof. reflexivity. Qed.

Lemma step_keeps_complete sin cos round fixed st e :
  is_ws_message e = false ->
  forallb complete (sensorData st) = true ->
  forallb complete (sensorData (step sin cos round fixed st e)) = true.
Proof.
  intros He H.
  destruct e; try discriminate; simpl;
    try (handlers; exact H).
  - unfold handleSerialData.
    destruct (parseData parsed now) as [data|] eqn:Hp; [|exact H].
    destruct (p_methane data) as [m|]; [|exact H].
    destruct (is_defined m); [|exact H].
    rewrite updateSensorState_sensorData.
    apply forallb_append; [exact H|].
    eapply serial_record_complete, Hp.
  - rewrite tick_sensorData. destruct (isConnected (loop st)); [exact H|].
    apply forallb_append; [exact H|apply synthesized_complete].
Qed.

(** Without messages from the socket, History only ever holds complete
    records: whatever the ticks, the serial lines and the operator's
    actions, no field of any record is [undefined]. *)
Theorem history_complete_without_socket_messages :
  forall (sin cos round : float -> float) (fixed : float -> nat -> float)
         (seed : nat -> float) (es : list event),
    forallb (fun e => negb (is_ws_message e)) es = true ->
    forallb complete
      (sensorData (run sin cos round fixed (init sin cos seed) es))
    = true.
Proof.
  intros sin cos round fixed seed es.
  assert (H0 : forallb complete (sensorData (init sin cos seed)) = true)
    by reflexivity.
  revert H0. generalize (init sin cos seed).
  induction es as [|e es IH]; intros st H0 Hes; simpl in *.
  - exact H0.
  - apply andb_true_iff in Hes as [He Hes].
    apply IH; [|exact Hes].
    apply step_keeps_complete; [|exact H0].
    now destruct (is_ws_message e).
Qed.

Lemma history_complete_without_socket_messages_witness :
  forallb complete
    (sensorData
       (run steep_sin flat_cos keep keepFixed (init steep_sin flat_cos half)
          [Tick "10:15:01" half; SetConnectionStatus CONNECTED;
           SerialData (Some serialNoGas) "10:15:02";
           SaveConfig strictConfig; Tick "10:15:03" half]))
  = true.
Proof.
  apply (history_complete_without_socket_messages steep_sin flat_cos keep
           keepFixed half).
  reflexivity.
Defined.

(** ** What the socket link accepts *)

(** A socket message is dropped exactly when [JSON.parse] throws or yields
    [null]; any other JSON text, a bare number, string, boolean or array
    included, appends a record stamped with the time of arrival, and for a
    text that is not an object all seven reported fields of that record are
    [undefined]. *)
Theorem socket_drops_only_unparseable_and_null :
  forall (parsed : option value) (now : string) (st : AppState),
    match parsed with
    | None | Some Null | Some Undefined =>
        handleWsMessage parsed now st = st
    | Some data =>
        exists d,
          sensorData (handleWsMessage parsed now st)
          = slice_last 49 (sensorData st) ++ [d]
          /\ timestamp d = Str now
          /\ (match data with
              | Obj _ => True
              | _ =>
                  methane d = Undefined /\ temperature d = Undefined
                  /\ humidity d = Undefined /\ battery d = Undefined
                  /\ wifiSignal d = Undefined
                  /\ obstacleDistance d = Undefined
                  /\ windSpeed d = Undefined
              end)
    end.
Proof.
  intros [[]|] now st; try reflexivity;
    (eexists; split;
     [unfold handleWsMessage; simpl; apply updateSensorState_sensorData
     |repeat split]).
Qed.

(** ** Outbound commands *)

(** A control command reaches a link only when both the App's flag for the
    link and the service's own state allow it: the socket gets the JSON
    frame when [isWsConnected] holds and the socket is open, the serial port
    gets the line [CMD:CTRL:<name>] and a newline when the status is
    [CONNECTED] and the port has its writer; with neither flag set nothing
    is sent at all. *)
Theorem control_command_fan_out :
  forall (cmd : ControlCommand) (st : AppState) (sv : Services),
    (forall m,
       In (WsSend m) (handleRobotCommand cmd st sv) <->
       isWsConnected st = true /\ socket sv = Some WS_OPEN
       /\ m = stringify_control cmd)
    /\ (forall t,
          In (SerialWrite t) (handleRobotCommand cmd st sv) <->
          connectionStatus st = CONNECTED
          /\ serial_isConnected sv = true /\ serial_writer sv = true
          /\ t = ("CMD:CTRL:" ++ command_name cmd ++ newline)%string)
    /\ (isWsConnected st = false -> connectionStatus st <> CONNECTED ->
        handleRobotCommand cmd st sv = []).
Proof.
  intros cmd st sv. unfold handleRobotCommand, send, sendCommand.
  destruct (isWsConnected st), (connectionStatus st),
    (socket sv) as [[]|], (onLogCallback sv), (serial_isConnected sv),
    (serial_writer sv); simpl;
    repeat split; intros;
    intuition (subst; try discriminate; try congruence).
Qed.

Lemma control_command_fan_out_witness :
  handleRobotCommand STOP (init steep_sin flat_cos half) allLinksUp = []
  /\ In (SerialWrite ("CMD:CTRL:STOP" ++ newline)%string)
       (handleRobotCommand STOP (sessionWith []) allLinksUp).
Proof.
  destruct (control_command_fan_out STOP (init steep_sin flat_cos half)
              allLinksUp) as (_ & _ & Hnone).
  destruct (control_command_fan_out STOP (sessionWith []) allLinksUp)
    as (_ & Hserial & _).
  split.
  - apply Hnone; [reflexivity|discriminate].
  - apply Hserial. repeat split.
Defined.

Ltac case_keys :=
  repeat match goal with
         | |- context [if ?c then _ else _] => destruct c
         end.

(** With the engine off no key sends anything; with it on a key sends what
    [handleRobotCommand] sends for the command the key maps to, and in track
    mode no key maps to [UP] or [DOWN]. *)
Theorem keyboard_commands :
  forall (engineOn : bool) (key : string) (st : AppState) (sv : Services),
    (engineOn = false -> pressKey engineOn key st sv = [])
    /\ (engineOn = true ->
        pressKey engineOn key st sv
        = match handleKeyDown key (mode st) with
          | Some cmd => handleRobotCommand cmd st sv
          | None => []
          end)
    /\ (mode st = TRACK ->
        handleKeyDown key (mode st) <> Some UP
        /\ handleKeyDown key (mode st) <> Some DOWN).
Proof.
  intros engineOn key st sv. split; [|split].
  - intros ->. reflexivity.
  - intros ->. unfold pressKey. simpl.
    destruct (handleKeyDown key (mode st)); reflexivity.
  - intros ->. unfold handleKeyDown.
    case_keys; split; discriminate.
Qed.

Lemma keyboard_commands_witness :
  pressKey false "w" (sessionWith []) allLinksUp = []
  /\ pressKey true "w" (sessionWith []) allLinksUp
     = [SerialWrite ("CMD:CTRL:FORWARD" ++ newline)%string]
  /\ handleKeyDown "q" (mode (sessionWith [])) <> Some UP.
Proof.
  destruct (keyboard_commands false "w" (sessionWith []) allLinksUp)
    as (Hoff & _ & _).
  destruct (keyboard_commands true "w" (sessionWith []) allLinksUp)
    as (_ & Hon & _).
  destruct (keyboard_commands true "q" (sessionWith []) allLinksUp)
    as (_ & _ & Htrack).
  split; [apply Hoff; reflexivity|].
  split; [rewrite Hon by reflexivity; reflexivity|].
  apply Htrack. reflexivity.
Defined.

(** A mode change is announced on the serial port only, never on the
    socket, and its only guard is the serial service's own state: while the
    port is open the line [CMD:MODE:FLIGHT] or [CMD:MODE:TRACK] goes out
    whatever the App's connection status, although with a status other than
    [CONNECTED] no control command is written to the port. *)
Theorem mode_command_ignores_status_flag :
  forall (newMode : RobotMode) (cmd : ControlCommand) (st : AppState)
         (sv : Services),
    (forall o, In o (snd (handleSetMode newMode st sv)) ->
       exists t, o = SerialWrite t)
    /\ (serial_isConnected sv = true -> serial_writer sv = true ->
        snd (handleSetMode newMode st sv)
        = [SerialWrite
             ((match newMode with
               | FLIGHT => "CMD:MODE:FLIGHT"
               | TRACK => "CMD:MODE:TRACK"
               end) ++ newline)%string])
    /\ (connectionStatus st <> CONNECTED ->
        forall t, ~ In (SerialWrite t) (handleRobotCommand cmd st sv))
    /\ mode (fst (handleSetMode newMode st sv)) = newMode.
Proof.
  intros newMode cmd st sv. split; [|split; [|split]].
  - unfold handleSetMode, sendCommand. simpl.
    destruct (negb _ || negb _); simpl; intros o H;
      [destruct H|destruct H as [<-|[]]; eexists; reflexivity].
  - intros H1 H2. unfold handleSetMode, sendCommand. simpl.
    rewrite H1, H2. destruct newMode; reflexivity.
  - intros Hst t. unfold handleRobotCommand, send, sendCommand.
    destruct (connectionStatus st); try congruence;
      destruct (isWsConnected st), (socket sv) as [[]|], (onLogCallback sv);
      simpl; intuition discriminate.
  - unfold handleSetMode, setMode. simpl.
    now destruct (render_rest
      (mkAppState newMode (connectionStatus st) (isWsConnected st)
         (algoConfig st) (isConfigModalOpen st) (sensorData st)
         (position st) (history st) (currentTime st) (loop st))) as [-> _].
Qed.

Lemma mode_command_ignores_status_flag_witness :
  snd (handleSetMode FLIGHT (init steep_sin flat_cos half) allLinksUp)
  = [SerialWrite ("CMD:MODE:FLIGHT" ++ newline)%string]
  /\ ~ In (SerialWrite ("CMD:CTRL:STOP" ++ newline)%string)
         (handleRobotCommand STOP (init steep_sin flat_cos half) allLinksUp).
Proof.
  destruct (mode_command_ignores_status_flag FLIGHT STOP
              (init steep_sin flat_cos half) allLinksUp)
    as (_ & Hmode & Hctrl & _).
  split.
  - apply Hmode; reflexivity.
  - apply Hctrl. discriminate.
Defined.

(** ** The configuration modal *)

Lemma applyEdit_in_range (c : AlgorithmConfig) (e : edit) :
  inDocumentedRanges c = true -> within_slider e = true ->
  inDocumentedRanges (applyEdit c e) = true.
Proof.
  unfold inDocumentedRanges.
  destruct e; simpl; rewrite ?andb_true_iff; intros Hc He;
    try reflexivity; tauto.
Qed.

Lemma edits_in_range (es : list edit) : forall c,
  inDocumentedRanges c = true -> forallb within_slider es = true ->
  inDocumentedRanges (fold_left applyEdit es c) = true.
Proof.
  induction es as [|e es IH]; intros c Hc Hes; simpl in *; [exact Hc|].
  apply andb_true_iff in Hes as [He Hes].
  apply IH; [|exact Hes]. now apply applyEdit_in_range.
Qed.

Lemma editLocal_value (config : AlgorithmConfig) (es : list edit) :
  forall r,
    localValue config (fold_left (editLocal config) es r)
    = fold_left applyEdit es (localValue config r).
Proof.
  induction es as [|e es IH]; intros r; simpl; [reflexivity|].
  rewrite IH. reflexivity.
Qed.

Lemma handleSave_value (r : ConfigRef) (st : AppState) :
  algoConfig (handleSave r st) = localValue (algoConfig st) r.
Proof.
  unfold handleSave, setConfigModalOpen. rewrite render_algoConfig.
  destruct r; reflexivity.
Qed.

Lemma handleSave_captured (r : ConfigRef) (st : AppState) :
  cl_algoConfig (loop st) = algoConfig st ->
  cl_algoConfig (loop (handleSave r st)) = algoConfig (handleSave r st).
Proof.
  intros H. destruct r as [|c].
  - unfold handleSave, setAlgoConfig, setConfigModalOpen.
    match goal with |- context [render ?s] =>
      destruct (render_synced (algoConfig st) s (conj eq_refl H))
        as [-> ->] end.
    reflexivity.
  - destruct (handleSave_algoConfig c st) as [-> ->]. reflexivity.
Qed.

(** What the modal can save: when the active configuration lies in the
    sliders' ranges, the data loop holds it, and every slider reports a
    value between its [min] and [max], then whatever the operator does
    between opening the modal and saving (moving sliders, resetting, or
    nothing at all), the configuration that is active afterwards is the
    edited one, the data loop holds it, and it lies in the ranges again. *)
Theorem sliders_keep_config_in_range :
  forall (es : list edit) (st : AppState),
    inDocumentedRanges (algoConfig st) = true ->
    forallb within_slider es = true ->
    cl_algoConfig (loop st) = algoConfig st ->
    algoConfig (editAndSave es st) = fold_left applyEdit es (algoConfig st)
    /\ cl_algoConfig (loop (editAndSave es st)) = algoConfig (editAndSave es st)
    /\ inDocumentedRanges (algoConfig (editAndSave es st)) = true.
Proof.
  intros es st Hc Hes Hloop.
  assert (Hopen : algoConfig (setConfigModalOpen true st) = algoConfig st).
  { unfold setConfigModalOpen. now rewrite render_algoConfig. }
  assert (Hv : algoConfig (editAndSave es st)
               = fold_left applyEdit es (algoConfig st)).
  { unfold editAndSave. rewrite handleSave_value, editLocal_value, Hopen.
    reflexivity. }
  split; [exact Hv|]. split.
  - unfold editAndSave. apply handleSave_captured.
    unfold setConfigModalOpen.
    match goal with |- context [render ?s] =>
      destruct (render_synced (algoConfig st) s (conj eq_refl Hloop))
        as [-> ->] end.
    reflexivity.
  - rewrite Hv. now apply edits_in_range.
Qed.

Lemma sliders_keep_config_in_range_witness :
  inDocumentedRanges
    (algoConfig
       (editAndSave [ChangeSlope 20; ResetDefaults; ChangeRoughness 0.02]
          (sessionWith [])))
  = true
  /\ editAndSave [] (sessionWith fullHistory)
     = setConfigModalOpen false
         (setConfigModalOpen true (sessionWith fullHistory)).
Proof.
  split; [|reflexivity].
  apply (sliders_keep_config_in_range
           [ChangeSlope 20; ResetDefaults; ChangeRoughness 0.02]
           (sessionWith [])); reflexivity.
Defined.

(** The three copies of the default limits agree: a save that ends with a
    reset makes the configuration of session start active again, and the
    synthesizer called against it decides as it does with no configuration
    at all. *)
Theorem reset_restores_startup_behaviour :
  forall (sin cos round : float -> float) (fixed : float -> nat -> float)
         (es : list edit) (st : AppState) (seed : nat -> float)
         (mode : RobotMode) (now : string) (rnd : nat -> float) (t : float),
    let st' := editAndSave (es ++ [ResetDefaults]) st in
    algoConfig st' = algoConfig (init sin cos seed)
    /\ generateSensorData sin cos round fixed mode (Some (algoConfig st'))
         now rnd t
       = generateSensorData sin cos round fixed mode None now rnd t.
Proof.
  intros sin cos round fixed es st seed mode now rnd t st'.
  assert (H : algoConfig st' = handleReset).
  { subst st'. unfold editAndSave.
    rewrite handleSave_value, editLocal_value, fold_left_app.
    reflexivity. }
  rewrite H. split; reflexivity.
Qed.

(** ** The passability card *)

Lemma SFcompare_none (a b : spec_float) :
  SFcompare a b = None -> a = S754_nan \/ b = S754_nan.
Proof.
  destruct a as [| | |sa ma ea], b as [| | |sb mb eb]; simpl;
    try discriminate; auto.
Qed.

Lemma not_nan_spec (a : float) : is_nan a = false -> Prim2SF a <> S754_nan.
Proof.
  unfold is_nan. rewrite eqb_spec. intros H E. rewrite E in H. discriminate.
Qed.

Lemma ltb_leb (a b : float) : (a <? b)%float = true -> (a <=? b)%float = true.
Proof.
  rewrite ltb_spec, leb_spec. unfold SFltb, SFleb.
  destruct (SFcompare _ _) as [[]|]; easy.
Qed.

Lemma eqb_sym (a b : float) : (a =? b)%float = (b =? a)%float.
Proof.
  rewrite !eqb_spec. unfold SFeqb.
  rewrite (SFcompare_swap (Prim2SF a) (Prim2SF b)).
  destruct (SFcompare _ _) as [[]|]; reflexivity.
Qed.

Lemma SFcompare_refl (a : spec_float) :
  a <> S754_nan -> SFcompare a a = Some Eq.
Proof.
  destruct a as [s|s| |s m e]; simpl; intros H; try congruence;
    try (destruct s; reflexivity).
  destruct s; rewrite Z.compare_refl, Pos.compare_cont_refl; reflexivity.
Qed.

(** A number is not below NaN. *)
Lemma ltb_not_nan (a b : float) : (a <? b)%float = true -> is_nan b = false.
Proof.
  rewrite ltb_spec. unfold SFltb, is_nan. rewrite eqb_spec. unfold SFeqb.
  intros H. rewrite SFcompare_refl; [reflexivity|].
  intros E. rewrite E in H.
  destruct (Prim2SF a); simpl in H; discriminate.
Qed.

(** Of two numbers, neither NaN, one is at most the other. *)
Lemma leb_of_not_ltb (a b : float) :
  is_nan a = false -> is_nan b = false ->
  (b <? a)%float = false -> (a <=? b)%float = true.
Proof.
  intros Ha Hb. apply not_nan_spec in Ha, Hb.
  rewrite ltb_spec, leb_spec. unfold SFltb, SFleb.
  rewrite (SFcompare_swap (Prim2SF a) (Prim2SF b)).
  destruct (SFcompare (Prim2SF a) (Prim2SF b)) as [[]|] eqn:E; simpl;
    try easy.
  apply SFcompare_none in E. tauto.
Qed.

(** The bar of a reading never overflows its track: the width is at most
    100, it is exactly 100 when the reading is beyond the scale, and it is
    not a number only when the quotient is not. *)
Theorem stability_width_at_most_100 :
  forall (val limit maxRange : float),
    let q := ((val / maxRange) * 100)%float in
    let w := getStabilityWidth val limit maxRange in
    (is_nan q = true -> is_nan w = true)
    /\ (is_nan q = false -> (w <=? 100)%float = true)
    /\ ((100 <? q)%float = true -> w = 100%float).
Proof.
  intros val limit maxRange q w. subst w.
  unfold getStabilityWidth, Math_min. fold q.
  change (is_nan 100) with false. change (get_sign 100) with false.
  cbv iota. split; [|split].
  - intros Hq. rewrite Hq. exact Hq.
  - intros Hq. rewrite Hq.
    destruct (100 <? q)%float eqn:H1; [reflexivity|].
    destruct (q <? 100)%float eqn:H2; [now apply ltb_leb|].
    apply leb_of_not_ltb; [exact Hq|reflexivity|exact H1].
  - intros H. rewrite H, (ltb_not_nan _ _ H). reflexivity.
Qed.

Lemma stability_width_at_most_100_witness :
  (getStabilityWidth 30 35 60 <=? 100)%float = true
  /\ getStabilityWidth 70 35 60 = 100%float.
Proof.
  destruct (stability_width_at_most_100 30 35 60) as (_ & Hle & _).
  destruct (stability_width_at_most_100 70 35 60) as (_ & _ & Hsat).
  split; [apply Hle|apply Hsat]; reflexivity.
Defined.

Lemma eqb_not_nan (a b : float) : (a =? b)%float = true -> is_nan a = false.
Proof.
  rewrite eqb_spec. unfold SFeqb, is_nan. rewrite eqb_spec. unfold SFeqb.
  intros H. rewrite SFcompare_refl; [reflexivity|].
  intros E. rewrite E in H. discriminate.
Qed.

(** Comparison does not see the sign of zero. *)
Lemma ltb_zero_sign (v l : float) :
  is_zero v = true -> (v <? l)%float = (0 <? l)%float.
Proof.
  unfold is_zero. rewrite eqb_spec, !ltb_spec.
  change (Prim2SF zero) with (S754_zero false).
  change (Prim2SF 0) with (S754_zero false).
  unfold SFeqb, SFltb.
  destruct (Prim2SF v) as [s|s| |s m e]; simpl; try discriminate.
  - intros _. destruct (Prim2SF l); reflexivity.
  - destruct s; discriminate.
  - destruct s; discriminate.
Qed.

Lemma or_zero_ltb (v l : float) :
  is_nan v = false -> (or_zero (Some v) <? l)%float = (v <? l)%float.
Proof.
  intros Hn. unfold or_zero, truthy. rewrite Hn, orb_false_r.
  destruct (is_zero v) eqn:Hz; simpl; [|reflexivity].
  symmetry. now apply ltb_zero_sign.
Qed.

Lemma getStabilityColor_green (val limit : float) :
  getStabilityColor val limit = "bg-green-500" <-> (val <? limit)%float = true.
Proof.
  unfold getStabilityColor. destruct (val <? limit)%float; split;
    congruence || discriminate.
Qed.

(** The card's bar and label against the verdict: a reading printed in bold
    red always has a red bar; a reading equal to its limit has a red bar but
    is not printed in red; and for readings that are numbers the three bars
    are all green exactly when the decision of the synthesizer on the same
    numbers is to pass. *)
Theorem card_bars_follow_the_verdict :
  (forall (m : option float) (limit : float),
     highlighted m limit = true -> barColor m limit = "bg-red-500")
  /\ (forall (v limit : float),
        (v =? limit)%float = true ->
        barColor (Some v) limit = "bg-red-500"
        /\ highlighted (Some v) limit = false)
  /\ (forall (s h g : float) (c : AlgorithmConfig),
        is_nan s = false -> is_nan h = false -> is_nan g = false ->
        (barColor (Some s) (maxSlope c) = "bg-green-500"
         /\ barColor (Some h) (maxStepHeight c) = "bg-green-500"
         /\ barColor (Some g) (maxRoughness c) = "bg-green-500")
        <-> isPassable s h g (Some c) = true).
Proof.
  split; [|split].
  - intros [v|] limit H; [|discriminate].
    unfold highlighted in H. apply andb_true_iff in H as [Ht Hl].
    unfold barColor, getStabilityColor, or_zero. rewrite Ht.
    now rewrite (ltb_leb_false _ _ (ltb_leb _ _ Hl)).
  - intros v limit H. split.
    + unfold barColor, getStabilityColor.
      rewrite (or_zero_ltb _ _ (eqb_not_nan _ _ H)).
      now rewrite (ltb_eqb_false _ _ H).
    + unfold highlighted. rewrite eqb_sym in H.
      rewrite (ltb_eqb_false _ _ H). apply andb_false_r.
  - intros s h g c Hs Hh Hg. unfold barColor.
    rewrite !getStabilityColor_green, isPassable_true_iff.
    rewrite !or_zero_ltb by assumption. reflexivity.
Qed.

Lemma card_bars_follow_the_verdict_witness :
  barColor (Some 35%float) 35 = "bg-red-500"
  /\ highlighted (Some 35%float) 35 = false
  /\ barColor (Some 36%float) 35 = "bg-red-500".
Proof.
  destruct card_bars_follow_the_verdict as (Hbold & Htie & _).
  destruct (Htie 35%float 35%float eq_refl) as [H1 H2].
  split; [exact H1|]. split; [exact H2|].
  apply Hbold. reflexivity.
Defined.

(** ** What the serial parser reports *)

Lemma js_or_0_truthy_or_zero (v : value) :
  truthy_or_zero (Some (js_or v (Num 0))).
Proof.
  eexists. split; [reflexivity|]. unfold js_or.
  destruct (truthy v) eqn:H; auto.
Qed.



(** ** The seed leaves the Trajectory *)

Section SeedEviction.

Variables Math_sin Math_cos Math_round : float -> float.
Variable toFixed : float -> nat -> float.

Local Abbreviation stepM := (step Math_sin Math_cos Math_round toFixed).
Local Abbreviation runM := (run Math_sin Math_cos Math_round toFixed).

Lemma step_history_stamped st e :
  match e with
  | Tick _ _ =>
      exists p, history (stepM st e) = slice_last 99 (history st) ++ [p]
                /\ has_timestamp p = true
  | _ => history (stepM st e) = history st
  end.
Proof.
  destruct e; simpl; try (handlers; reflexivity).
  - unfold handleWsMessage. destruct (onmessage parsed now);
      handlers; reflexivity.
  - unfold handleSerialData.
    destruct (parseData parsed now) as [data|]; [|reflexivity].
    destruct (p_methane data) as [m|]; [|reflexivity].
    destruct (is_defined m); handlers; reflexivity.
  - unfold tick. rewrite render_history.
    destruct (isConnected (loop st)); eexists; split; reflexivity.
Qed.

Lemma run_history_window es : forall st,
  List.length (history st) <= 100 ->
  exists pts,
    List.length pts = count_ticks es
    /\ forallb has_timestamp pts = true
    /\ history (runM st es) = slice_last 100 (history st ++ pts).
Proof.
  induction es as [|e es IH]; intros st Hlen.
  - exists []. repeat split. simpl. rewrite app_nil_r.
    symmetry. now apply slice_last_short.
  - assert (Hlen' : List.length (history (stepM st e)) <= 100).
    { exact (untouched_or_appended_bound 99 _ _
               (step_history Math_sin Math_cos Math_round toFixed st e)
               Hlen). }
    destruct (IH (stepM st e) Hlen') as (pts & Hn & Hall & Hh).
    pose proof (step_history_stamped st e) as He.
    change (runM st (e :: es)) with (runM (stepM st e) es).
    rewrite Hh.
    destruct e;
      try (exists pts; rewrite He; repeat split; assumption).
    destruct He as (p & Hp & Hstamp).
    exists (p :: pts). split; [simpl; unfold count_ticks in *; simpl; lia|].
    split; [simpl; now rewrite Hstamp|].
    rewrite Hp, slice_last_app_one, slice_last_absorb, <- app_assoc.
    reflexivity.
Qed.

End SeedEviction.

(** The Trajectory always holds exactly 100 points; each tick, whichever
    branch of the loop runs, evicts one more seed point, and once 100 ticks
    have fired no seed point is left: every point carries a timestamp. *)
Theorem seed_is_gone_after_100_ticks :
  forall (sin cos round : float -> float) (fixed : float -> nat -> float)
         (seed : nat -> float) (es : list event),
    let st := run sin cos round fixed (init sin cos seed) es in
    List.length (history st) = 100
    /\ (count_ticks es = 0 ->
        history st = generateInitialTrajectory sin cos seed)
    /\ (100 <= count_ticks es -> forallb has_timestamp (history st) = true).
Proof.
  intros sin cos round fixed seed es st.
  pose proof (generateInitialTrajectory_length sin cos seed) as Hseed.
  destruct (run_history_window sin cos round fixed es (init sin cos seed))
    as (pts & Hn & Hall & Hh).
  { destruct (init_buffers sin cos seed) as [_ ->]. lia. }
  fold st in Hh. destruct (init_buffers sin cos seed) as [_ Hi].
  rewrite Hi in Hh. rewrite Hh. split; [|split].
  - rewrite slice_last_length, length_app, Hseed. lia.
  - intros H0. rewrite H0 in Hn. destruct pts; [|discriminate].
    rewrite app_nil_r. apply slice_last_short. lia.
  - intros H100. unfold slice_last.
    rewrite length_app, Hseed, skipn_app, Hseed.
    rewrite skipn_all2 by lia. simpl.
    now apply forallb_skipn.
Qed.

Lemma seed_is_gone_after_100_ticks_witness :
  100 <= count_ticks (repeat (Tick "10:15:00" half) 100)
  /\ forallb has_timestamp
       (history
          (run steep_sin flat_cos keep keepFixed
             (init steep_sin flat_cos half)
             (repeat (Tick "10:15:00" half) 100)))
     = true.
Proof.
  assert (H : 100 <= count_ticks (repeat (Tick "10:15:00" half) 100))
    by (apply Nat.leb_le; reflexivity).
  split; [exact H|].
  destruct (seed_is_gone_after_100_ticks steep_sin flat_cos keep keepFixed
              half (repeat (Tick "10:15:00" half) 100)) as (_ & _ & H100).
  apply H100, H.
Defined.

(** ** What the modal can make active *)

Section Ranges.

Variables Math_sin Math_cos Math_round : float -> float.
Variable toFixed : float -> nat -> float.

Local Abbreviation stepM := (step Math_sin Math_cos Math_round toFixed).
Local Abbreviation actM := (act Math_sin Math_cos Math_round toFixed).
Local Abbreviation operateM :=
  (operate Math_sin Math_cos Math_round toFixed).

Lemma step_keeps_algoConfig st e :
  is_save e = false -> algoConfig (stepM st e) = algoConfig st.
Proof.
  intros He. destruct e; try discriminate; simpl.
  - unfold setMode. now rewrite render_algoConfig.
  - unfold setConnectionStatus. now rewrite render_algoConfig.
  - unfold setWsConnected. now rewrite render_algoConfig.
  - unfold setConfigModalOpen. now rewrite render_algoConfig.
  - unfold setConfigModalOpen. now rewrite render_algoConfig.
  - unfold handleWsMessage. destruct (onmessage parsed now); [|reflexivity].
    unfold updateSensorState. now rewrite render_algoConfig.
  - unfold handleSerialData.
    destruct (parseData parsed now) as [data|]; [|reflexivity].
    destruct (p_methane data) as [m|]; [|reflexivity].
    destruct (is_defined m); [|reflexivity].
    unfold updateSensorState. now rewrite render_algoConfig.
  - unfold tick. rewrite render_algoConfig.
    destruct (isConnected (loop st)); [reflexivity|].
    unfold syntheticTick.
    destruct (generateSensorData _ _ _ _ _ _ _ _ _). reflexivity.
Qed.

Lemma act_within_ranges k a :
  operable a = true -> within_ranges k -> within_ranges (actM k a).
Proof.
  intros Ha (Hc & Hs & Hl). destruct a as [e|e|]; simpl in Ha.
  - assert (He : is_save e = false) by now destruct e.
    pose proof (step_keeps_algoConfig (app k) e He) as Hk.
    pose proof (step_config_captured Math_sin Math_cos Math_round toFixed
                  (app k) e Hl) as Hl'.
    unfold within_ranges, shown in *.
    destruct e; try discriminate; cbn [act app cm_localConfig];
      (split; [rewrite Hk; exact Hc|]); (split; [|exact Hl']);
      rewrite Hk; try exact Hs.
    destruct (isConfigModalOpen (app k)); assumption.
  - unfold act. destruct (isConfigModalOpen (app k));
      [|repeat split; assumption].
    unfold within_ranges, shown in *. simpl.
    repeat split; try assumption. now apply applyEdit_in_range.
  - unfold act. destruct (isConfigModalOpen (app k));
      [|repeat split; assumption].
    unfold within_ranges, shown in *. simpl.
    rewrite (handleSave_captured (cm_localConfig k) (app k) Hl).
    rewrite handleSave_value. repeat split; assumption.
Qed.

Lemma operate_within_ranges actions : forall k,
  forallb operable actions = true -> within_ranges k ->
  within_ranges (operateM k actions).
Proof.
  induction actions as [|a actions IH]; intros k Ha Hk; simpl in *.
  - exact Hk.
  - apply andb_true_iff in Ha as [Ha Has].
    apply IH; [exact Has|]. now apply act_within_ranges.
Qed.

End Ranges.


